(** * apollo-upload-client: the upload links, request construction and
      response classification

    A shallow embedding of [src/index.mjs] (the links [jsonUploadLink],
    [multipartUploadLink] and the dispatching [createUploadLink]) and of
    the earlier [createUploadLink] kept in the second source file, which
    lives here in [Module Part000].

    JavaScript values are a tree type, objects are association lists in
    insertion order, header bags are finite maps, a thrown exception is
    the [Threw] case of a result type, and a promise chain is the
    function from the settlement of the fetch promise to the calls made
    on the observer. *)

From Stdlib Require Import ZArith List String Ascii Bool Lia.
From stdpp Require Import base option list gmap strings fin_maps pretty.

Local Open Scope Z_scope.

(** ** Results of code that may throw *)

Inductive Result (E A : Type) : Type :=
| Returned (a : A)
| Threw (e : E).
Arguments Returned {E A} a.
Arguments Threw {E A} e.

Global Instance Result_ret {E} : MRet (Result E) := fun _ a => Returned a.
Global Instance Result_bind {E} : MBind (Result E) := fun _ _ k r =>
  match r with
  | Returned a => k a
  | Threw e => Threw e
  end.

(** ** JavaScript values *)

(** A file-like value (File, Blob, ReactNativeFile): an opaque handle of
    which the links read only [name]. *)
Record File : Type := { file_name : string; file_uid : nat }.

(** Numbers are kept as their JSON lexeme: no code here computes with
    them.  [VBigInt] is a value that [JSON.stringify] refuses. *)
Unset Elimination Schemes.
Inductive value : Type :=
| VNull
| VBool (b : bool)
| VNum (lexeme : string)
| VStr (s : string)
| VBigInt (z : Z)
| VFile (f : File)
| VArr (elems : list value)
| VObj (members : list (string * value)).
Set Elimination Schemes.

Section value_induction.
Variable P : value → Prop.
Hypothesis HNull : P VNull.
Hypothesis HBool : ∀ b, P (VBool b).
Hypothesis HNum : ∀ n, P (VNum n).
Hypothesis HStr : ∀ s, P (VStr s).
Hypothesis HBigInt : ∀ z, P (VBigInt z).
Hypothesis HFile : ∀ f, P (VFile f).
Hypothesis HArr : ∀ l, Forall P l → P (VArr l).
Hypothesis HObj : ∀ m, Forall (fun kv => P (snd kv)) m → P (VObj m).

Fixpoint value_ind (v : value) : P v :=
    match v with
    | VNull => HNull
    | VBool b => HBool b
    | VNum n => HNum n
    | VStr s => HStr s
    | VBigInt z => HBigInt z
    | VFile f => HFile f
    | VArr l =>
        HArr l ((fix all (l : list value) : Forall P l :=
                   match l with
                   | [] => @List.Forall_nil _ P
                   | x :: r => @List.Forall_cons _ P x r (value_ind x) (all r)
                   end) l)
    | VObj m =>
        HObj m ((fix all (m : list (string * value))
                   : Forall (fun kv => P (snd kv)) m :=
                   match m with
                   | [] => @List.Forall_nil _ _
                   | kv :: r => @List.Forall_cons _ _ kv r (value_ind (snd kv)) (all r)
                   end) m)
    end.
End value_induction.

(** Objects: own string-keyed properties in insertion order. *)
Definition JsObject : Type := list (string * value).

Fixpoint obj_get (k : string) (o : JsObject) : option value :=
  match o with
  | [] => None
  | (k', v) :: r => if String.eqb k k' then Some v else obj_get k r
  end.

Definition obj_has (k : string) (o : JsObject) : bool :=
  match obj_get k o with Some _ => true | None => false end.

(** [o[k] = v]: an existing key keeps its place, a new one goes last. *)
Fixpoint obj_set (k : string) (v : value) (o : JsObject) : JsObject :=
  match o with
  | [] => [(k, v)]
  | (k', v') :: r =>
      if String.eqb k k' then (k, v) :: r else (k', v') :: obj_set k v r
  end.

Definition obj_keys (o : JsObject) : list string := map fst o.

(** JavaScript truthiness of an optional string: [undefined] and the
    empty string are falsy. *)
Definition truthy_string (s : option string) : bool :=
  match s with
  | Some s => negb (String.eqb s "")
  | None => false
  end.

(** [String(x)] of an optional string, as [FormData.append] applies it. *)
Definition String_of (s : option string) : string :=
  match s with Some s => s | None => "undefined" end.

(** ** The runtime's JSON serialiser and parser

    [JSON.stringify] and [JSON.parse] belong to the JavaScript runtime,
    not to the repository; they are written out so that the links can be
    run on request and response texts. *)

Definition dquote : ascii := ascii_of_nat 34.
Definition backslash : ascii := ascii_of_nat 92.
Definition quote_string : string := String dquote EmptyString.

Definition hex_digit (n : nat) : ascii :=
  ascii_of_nat (if Nat.ltb n 10 then 48 + n else 87 + n)%nat.

(** The escape of one character inside a JSON string literal. *)
Definition escape_char (c : ascii) : string :=
  let n := nat_of_ascii c in
  if Ascii.eqb c dquote then String backslash quote_string
  else if Ascii.eqb c backslash then String backslash (String backslash EmptyString)
  else if Nat.eqb n 8 then String backslash "b"
  else if Nat.eqb n 9 then String backslash "t"
  else if Nat.eqb n 10 then String backslash "n"
  else if Nat.eqb n 12 then String backslash "f"
  else if Nat.eqb n 13 then String backslash "r"
  else if Nat.ltb n 32 then
    String backslash
      ("u00" +:+ String (hex_digit (n / 16)%nat)
                   (String (hex_digit (n mod 16)%nat) EmptyString))
  else String c EmptyString.

Fixpoint escape_string (s : string) : string :=
  match s with
  | EmptyString => EmptyString
  | String c r => escape_char c +:+ escape_string r
  end.

Definition quote (s : string) : string :=
  quote_string +:+ escape_string s +:+ quote_string.

(** The text [JSON.stringify] gives, [None] where it throws.  A file
    leaf is written [null], the wire form of an extracted file. *)
Fixpoint stringify_text (v : value) : option string :=
  match v with
  | VNull => Some "null"
  | VBool true => Some "true"
  | VBool false => Some "false"
  | VNum lexeme => Some lexeme
  | VStr s => Some (quote s)
  | VBigInt _ => None
  | VFile _ => Some "null"
  | VArr l =>
      match (fix elems (l : list value) : option (list string) :=
               match l with
               | [] => Some []
               | x :: r =>
                   match stringify_text x, elems r with
                   | Some sx, Some sr => Some (sx :: sr)
                   | _, _ => None
                   end
               end) l with
      | Some parts => Some ("[" +:+ String.concat "," parts +:+ "]")
      | None => None
      end
  | VObj m =>
      match (fix membs (m : list (string * value)) : option (list string) :=
               match m with
               | [] => Some []
               | (k, x) :: r =>
                   match stringify_text x, membs r with
                   | Some sx, Some sr => Some ((quote k +:+ ":" +:+ sx) :: sr)
                   | _, _ => None
                   end
               end) m with
      | Some parts => Some ("{" +:+ String.concat "," parts +:+ "}")
      | None => None
      end
  end.

(** *** Lexing *)

Definition is_ws (c : ascii) : bool :=
  let n := nat_of_ascii c in
  Nat.eqb n 32 || Nat.eqb n 9 || Nat.eqb n 10 || Nat.eqb n 13.

Fixpoint skip_ws (s : list ascii) : list ascii :=
  match s with
  | c :: r => if is_ws c then skip_ws r else s
  | [] => []
  end.

Definition is_digit (c : ascii) : bool :=
  let n := nat_of_ascii c in Nat.leb 48 n && Nat.leb n 57.

Fixpoint span_digits (s : list ascii) : list ascii * list ascii :=
  match s with
  | c :: r =>
      if is_digit c
      then let '(d, rest) := span_digits r in (c :: d, rest)
      else ([], s)
  | [] => ([], [])
  end.

(** A number lexeme: an optional minus; either a single zero or a
    nonzero digit followed by digits; an optional fraction of a point and
    one or more digits; an optional exponent of e or E, an optional sign
    and one or more digits. *)
Definition lex_number (s : list ascii) : option (list ascii * list ascii) :=
  let '(sign, s1) :=
    match s with
    | c :: r => if Ascii.eqb c "-" then ([c], r) else ([], s)
    | [] => ([], s)
    end in
  let '(int, s2) := span_digits s1 in
  match int with
  | [] => None
  | d :: ds =>
      if Ascii.eqb d "0" && negb (Nat.eqb (length ds) 0) then None else
      let frac :=
        match s2 with
        | c :: r =>
            if Ascii.eqb c "."
            then match span_digits r with
                 | ([], _) => None
                 | (f, s3) => Some (c :: f, s3)
                 end
            else Some ([], s2)
        | [] => Some ([], s2)
        end in
      match frac with
      | None => None
      | Some (f, s3) =>
          match s3 with
          | c :: r =>
              if Ascii.eqb c "e" || Ascii.eqb c "E" then
                let '(sg, r') :=
                  match r with
                  | c' :: r'' =>
                      if Ascii.eqb c' "+" || Ascii.eqb c' "-"
                      then ([c'], r'') else ([], r)
                  | [] => ([], r)
                  end in
                match span_digits r' with
                | ([], _) => None
                | (e, s4) => Some (sign ++ int ++ f ++ c :: sg ++ e, s4)
                end
              else Some (sign ++ int ++ f, s3)
          | [] => Some (sign ++ int ++ f, s3)
          end
      end
  end.

Definition hex_value (c : ascii) : option nat :=
  let n := nat_of_ascii c in
  if Nat.leb 48 n && Nat.leb n 57 then Some (n - 48)%nat
  else if Nat.leb 65 n && Nat.leb n 70 then Some (n - 55)%nat
  else if Nat.leb 97 n && Nat.leb n 102 then Some (n - 87)%nat
  else None.

(** UTF-8 of a code unit below 65536. *)
Definition utf8 (n : nat) : list ascii :=
  if Nat.ltb n 128 then [ascii_of_nat n]
  else if Nat.ltb n 2048 then
    [ascii_of_nat (192 + n / 64); ascii_of_nat (128 + n mod 64)]%nat
  else
    [ascii_of_nat (224 + n / 4096); ascii_of_nat (128 + (n / 64) mod 64);
     ascii_of_nat (128 + n mod 64)]%nat.

(** The characters of a string literal after its opening quote, up to
    and including the closing one. *)
Fixpoint lex_string (s : list ascii) : option (list ascii * list ascii) :=
  match s with
  | [] => None
  | c :: r =>
      if Ascii.eqb c dquote then Some ([], r)
      else if Ascii.eqb c backslash then
        match r with
        | e :: r1 =>
            let simple (x : ascii) :=
              match lex_string r1 with
              | Some (cs, rest) => Some (x :: cs, rest)
              | None => None
              end in
            if Ascii.eqb e dquote then simple dquote
            else if Ascii.eqb e backslash then simple backslash
            else if Ascii.eqb e "/" then simple "/"%char
            else if Ascii.eqb e "b" then simple (ascii_of_nat 8)
            else if Ascii.eqb e "f" then simple (ascii_of_nat 12)
            else if Ascii.eqb e "n" then simple (ascii_of_nat 10)
            else if Ascii.eqb e "r" then simple (ascii_of_nat 13)
            else if Ascii.eqb e "t" then simple (ascii_of_nat 9)
            else if Ascii.eqb e "u" then
              match r1 with
              | h1 :: h2 :: h3 :: h4 :: r2 =>
                  match hex_value h1, hex_value h2, hex_value h3, hex_value h4,
                        lex_string r2 with
                  | Some a, Some b, Some c', Some d, Some (cs, rest) =>
                      Some (utf8 (((a * 16 + b) * 16 + c') * 16 + d)%nat ++ cs, rest)
                  | _, _, _, _, _ => None
                  end
              | _ => None
              end
            else None
        | [] => None
        end
      else if Nat.ltb (nat_of_ascii c) 32 then None
      else match lex_string r with
           | Some (cs, rest) => Some (c :: cs, rest)
           | None => None
           end
  end.

Fixpoint starts_with (p s : list ascii) : option (list ascii) :=
  match p, s with
  | [], _ => Some s
  | a :: p', b :: s' => if Ascii.eqb a b then starts_with p' s' else None
  | _ :: _, [] => None
  end.

(** *** Parsing

    The recursion is on fuel.  [JSON_parse] supplies more fuel than the
    text has characters; every recursive call comes after a character
    was consumed, and no larger fuel changes the result
    ([parse_value_fuel] below). *)

Definition Parser (A : Type) : Type := list ascii → option (A * list ascii).

Fixpoint parse_elements (pv : Parser value) (fuel : nat) : Parser (list value) :=
  fun s =>
  match fuel with
  | O => None
  | S n =>
      match pv s with
      | Some (v, r) =>
          match skip_ws r with
          | c :: r' =>
              if Ascii.eqb c "," then
                match parse_elements pv n r' with
                | Some (vs, rest) => Some (v :: vs, rest)
                | None => None
                end
              else if Ascii.eqb c "]" then Some ([v], r')
              else None
          | [] => None
          end
      | None => None
      end
  end.

Fixpoint parse_members (pv : Parser value) (fuel : nat)
    : Parser (list (string * value)) :=
  fun s =>
  match fuel with
  | O => None
  | S n =>
      match skip_ws s with
      | q :: r0 =>
          if Ascii.eqb q dquote then
            match lex_string r0 with
            | Some (k, r1) =>
                match skip_ws r1 with
                | colon :: r2 =>
                    if Ascii.eqb colon ":" then
                      match pv r2 with
                      | Some (v, r3) =>
                          match skip_ws r3 with
                          | c :: r4 =>
                              if Ascii.eqb c "," then
                                match parse_members pv n r4 with
                                | Some (kvs, rest) =>
                                    Some ((string_of_list_ascii k, v) :: kvs, rest)
                                | None => None
                                end
                              else if Ascii.eqb c "}"
                              then Some ([(string_of_list_ascii k, v)], r4)
                              else None
                          | [] => None
                          end
                      | None => None
                      end
                    else None
                | [] => None
                end
            | None => None
            end
          else None
      | [] => None
      end
  end.

(** A repeated member name keeps its first place and its last value. *)
Definition object_of_members (kvs : list (string * value)) : JsObject :=
  fold_left (fun o kv => obj_set (fst kv) (snd kv) o) kvs [].

Fixpoint parse_value (fuel : nat) : Parser value :=
  fun s =>
  match fuel with
  | O => None
  | S n =>
      match skip_ws s with
      | [] => None
      | c :: r =>
          if Ascii.eqb c "{" then
            match skip_ws r with
            | c' :: r' =>
                if Ascii.eqb c' "}" then Some (VObj [], r')
                else match parse_members (parse_value n) n r with
                     | Some (kvs, rest) => Some (VObj (object_of_members kvs), rest)
                     | None => None
                     end
            | [] => None
            end
          else if Ascii.eqb c "[" then
            match skip_ws r with
            | c' :: r' =>
                if Ascii.eqb c' "]" then Some (VArr [], r')
                else match parse_elements (parse_value n) n r with
                     | Some (vs, rest) => Some (VArr vs, rest)
                     | None => None
                     end
            | [] => None
            end
          else if Ascii.eqb c dquote then
            match lex_string r with
            | Some (cs, rest) => Some (VStr (string_of_list_ascii cs), rest)
            | None => None
            end
          else if Ascii.eqb c "-" || is_digit c then
            match lex_number (c :: r) with
            | Some (lexeme, rest) => Some (VNum (string_of_list_ascii lexeme), rest)
            | None => None
            end
          else
            match starts_with (list_ascii_of_string "true") (c :: r),
                  starts_with (list_ascii_of_string "false") (c :: r),
                  starts_with (list_ascii_of_string "null") (c :: r) with
            | Some rest, _, _ => Some (VBool true, rest)
            | _, Some rest, _ => Some (VBool false, rest)
            | _, _, Some rest => Some (VNull, rest)
            | _, _, _ => None
            end
      end
  end.

(** [JSON.parse]: [None] where it throws a SyntaxError. *)
Definition JSON_parse (text : string) : option value :=
  let s := list_ascii_of_string text in
  match parse_value (S (length s)) s with
  | Some (v, rest) =>
      match skip_ws rest with
      | [] => Some v
      | _ :: _ => None
      end
  | None => None
  end.

(** ** Responses, errors and operations *)

(** What the links read of a fetch response; [bodyText] is what
    [response.text()] resolves to when the read of the body succeeds.  A
    read that rejects is the settlement [fulfilled_unread] below. *)
Record Response : Type := {
  status : Z;
  statusText : string;
  bodyText : string
}.

(** [response.ok] of the fetch standard: a status from 200 to 299. *)
Definition ok (r : Response) : bool := (200 <=? status r) && (status r <=? 299).

(** A JavaScript error object with the properties this code attaches
    or reads; a property that is not set is [None]. *)
Unset Elimination Schemes.
Inductive JsError : Type := mkJsError {
  err_name : string;
  err_message : string;
  err_response : option Response;
  err_statusCode : option Z;
  err_result : option value;
  err_bodyText : option string;
  err_parseError : option JsError
}.
Set Elimination Schemes.

Definition new_Error (name message : string) : JsError :=
  {| err_name := name; err_message := message; err_response := None;
     err_statusCode := None; err_result := None; err_bodyText := None;
     err_parseError := None |}.

(** Errors the runtime raises by itself. *)
Definition SyntaxError : JsError :=
  new_Error "SyntaxError" "Unexpected token in JSON".
Definition TypeError (message : string) : JsError := new_Error "TypeError" message.
Definition ReferenceError (ident : string) : JsError :=
  new_Error "ReferenceError" (ident +:+ " is not defined").
(** The rejection of a fetch whose signal was aborted. *)
Definition AbortError : JsError :=
  new_Error "AbortError" "The user aborted a request.".

Definition JSON_stringify (v : value) : Result JsError string :=
  match stringify_text v with
  | Some s => Returned s
  | None => Threw (TypeError "Do not know how to serialize a BigInt")
  end.

(** A parsed query stands for its canonical text, which is all [print]
    gives the links. *)
Record Document : Type := { printed : string }.
Definition print (query : Document) : string := printed query.

Record Operation : Type := {
  operationName : option string;
  variables : JsObject;
  query : Document;
  extensions : option JsObject
}.

(** ** The response classifier *)

Definition throwServerError {A : Type}
    (response : Response) (result : value) (message : string)
    : Result JsError A :=
  Threw {| err_name := "Error"; err_message := message;
           err_response := Some response;
           err_statusCode := Some (status response);
           err_result := Some result;
           err_bodyText := None; err_parseError := None |}.

(** The own property names of an array or string of [n] items. *)
Definition indexed_keys (n : nat) : list string :=
  map (fun i : nat => pretty i) (seq 0 n) ++ ["length"].

(** The call [result.hasOwnProperty(key)]: reading a property of [null]
    throws, and an own member named [hasOwnProperty] shadows the method
    with a value that cannot be called. *)
Definition hasOwnProperty (result : value) (key : string) : Result JsError bool :=
  match result with
  | VNull => Threw (TypeError "Cannot read properties of null (reading 'hasOwnProperty')")
  | VObj m =>
      if obj_has "hasOwnProperty" m
      then Threw (TypeError "result.hasOwnProperty is not a function")
      else Returned (obj_has key m)
  | VArr l => Returned (existsb (String.eqb key) (indexed_keys (length l)))
  | VStr s => Returned (existsb (String.eqb key) (indexed_keys (String.length s)))
  | VBool _ | VNum _ | VBigInt _ | VFile _ => Returned false
  end.

Definition parseAndCheckResponse (request : Operation) (response : Response)
    : Result JsError value :=
  result ←
    match JSON_parse (bodyText response) with
    | Some v => Returned v
    | None =>
        Threw {| err_name := err_name SyntaxError;
                 err_message := err_message SyntaxError;
                 err_response := Some response;
                 err_statusCode := Some (status response);
                 err_result := None;
                 err_bodyText := Some (bodyText response);
                 err_parseError := None |}
    end;
  _ ← (if 300 <=? status response
       then throwServerError response result
              ("Response not successful: Received status code "
                 +:+ pretty (status response))
       else Returned tt);
  hasData ← hasOwnProperty result "data";
  missing ← (if (hasData : bool) then Returned false
             else hasErrors ← hasOwnProperty result "errors";
                  Returned (negb hasErrors));
  if (missing : bool)
  then throwServerError response result
         ("Server response was missing for query '"
            +:+ String_of (operationName request) +:+ "'.")
  else Returned result.

(** The promise [parseAndCheckResponse(request)(response)] returns, with
    the body read in it: [response.text()] resolves to the body text,
    and the two handlers above run, or it rejects with [unread], and
    the promise rejects with that reason, neither handler having run. *)
Definition parseAndCheckResponse_read (request : Operation) (response : Response)
    (unread : option JsError) : Result JsError value :=
  match unread with
  | Some reason => Threw reason
  | None => parseAndCheckResponse request response
  end.

(** ** The file extractor *)

Inductive Segment : Type :=
| Key (k : string)
| Index (i : nat).

Definition Path : Type := list Segment.

Record ExtractedFile : Type := { path : Path; file : File }.

(** Modelled from the spec: [extractFiles] of the package extract-files,
    which is imported and not part of the sources.  It walks a nested
    value and returns, in walk order, each file-like leaf with its path
    from the root; nothing else is reported, and a value without files
    gives the empty sequence. *)
Fixpoint extractFiles_from (prefix : Path) (tree : value) : list ExtractedFile :=
  match tree with
  | VFile f => [{| path := prefix; file := f |}]
  | VArr l =>
      (fix items (i : nat) (l : list value) : list ExtractedFile :=
         match l with
         | [] => []
         | x :: r => extractFiles_from (prefix ++ [Index i]) x ++ items (S i) r
         end) O l
  | VObj m =>
      (fix props (m : list (string * value)) : list ExtractedFile :=
         match m with
         | [] => []
         | (k, x) :: r => extractFiles_from (prefix ++ [Key k]) x ++ props r
         end) m
  | VNull | VBool _ | VNum _ | VStr _ | VBigInt _ => []
  end.

Definition extractFiles (tree : value) : list ExtractedFile :=
  extractFiles_from [] tree.

(** A path as the extractor writes it, segments joined by dots. *)
Definition segment_string (s : Segment) : string :=
  match s with
  | Key k => k
  | Index i => pretty i
  end.

Definition path_string (p : Path) : string :=
  String.concat "." (map segment_string p).

(** Whether a value holds a file-like value at any depth. *)
Fixpoint has_file (v : value) : bool :=
  match v with
  | VFile _ => true
  | VArr l => (fix any (l : list value) : bool :=
                 match l with
                 | [] => false
                 | x :: r => has_file x || any r
                 end) l
  | VObj m => (fix any (m : list (string * value)) : bool :=
                 match m with
                 | [] => false
                 | (_, x) :: r => has_file x || any r
                 end) m
  | VNull | VBool _ | VNum _ | VStr _ | VBigInt _ => false
  end.

(** The value found by following a path: property access by name on an
    object, by position on an array. *)
Fixpoint get_path (p : Path) (v : value) : option value :=
  match p with
  | [] => Some v
  | Key k :: p' =>
      match v with
      | VObj m =>
          match obj_get k m with
          | Some x => get_path p' x
          | None => None
          end
      | _ => None
      end
  | Index i :: p' =>
      match v with
      | VArr l =>
          match nth_error l i with
          | Some x => get_path p' x
          | None => None
          end
      | _ => None
      end
  end.

(** Objects have each property name once, at every depth. *)
Fixpoint unique_keys (v : value) : Prop :=
  match v with
  | VArr l => (fix all (l : list value) : Prop :=
                 match l with
                 | [] => True
                 | x :: r => unique_keys x ∧ all r
                 end) l
  | VObj m => NoDup (map fst m) ∧
              (fix all (m : list (string * value)) : Prop :=
                 match m with
                 | [] => True
                 | (_, x) :: r => unique_keys x ∧ all r
                 end) m
  | VNull | VBool _ | VNum _ | VStr _ | VBigInt _ | VFile _ => True
  end.

(** ** Requests *)

(** Header bags: the own properties of a plain object, by exact name. *)
Abbreviation Headers := (gmap string string).

(** [{...a, ...b}] of two header bags: [b] wins on a shared name.
    Spreading [undefined] adds nothing. *)
Definition spread_headers (a b : Headers) : Headers := b ∪ a.
Definition headers_or_empty (h : option Headers) : Headers := default ∅ h.

Inductive Controller : Type := AbortController_new.

Inductive Signal : Type :=
| signal_of (c : Controller)
| caller_signal (uid : nat).

Inductive Part : Type :=
| PText (text : string)
| PFile (f : File) (filename : string).

(** A request body: text, or a FormData as its appended entries. *)
Inductive Body : Type :=
| BodyText (text : string)
| FormData (entries : list (string * Part)).

(** An options bag for fetch.  The keys the links read or write are
    fields, [None] when the key is absent; any other key is in
    [fo_other]. *)
Record FetchOptions : Type := {
  fo_method : option string;
  fo_headers : option Headers;
  fo_body : option Body;
  fo_credentials : option string;
  fo_signal : option Signal;
  fo_other : gmap string string
}.

Definition no_options : FetchOptions :=
  {| fo_method := None; fo_headers := None; fo_body := None;
     fo_credentials := None; fo_signal := None; fo_other := ∅ |}.

Definition later {A : Type} (a b : option A) : option A :=
  match b with Some _ => b | None => a end.

(** [{...a, ...b}] of two option bags. *)
Definition spread (a b : FetchOptions) : FetchOptions :=
  {| fo_method := later (fo_method a) (fo_method b);
     fo_headers := later (fo_headers a) (fo_headers b);
     fo_body := later (fo_body a) (fo_body b);
     fo_credentials := later (fo_credentials a) (fo_credentials b);
     fo_signal := later (fo_signal a) (fo_signal b);
     fo_other := fo_other b ∪ fo_other a |}.

Definition with_method (m : string) (o : FetchOptions) : FetchOptions :=
  {| fo_method := Some m; fo_headers := fo_headers o; fo_body := fo_body o;
     fo_credentials := fo_credentials o; fo_signal := fo_signal o;
     fo_other := fo_other o |}.
Definition with_headers (h : Headers) (o : FetchOptions) : FetchOptions :=
  {| fo_method := fo_method o; fo_headers := Some h; fo_body := fo_body o;
     fo_credentials := fo_credentials o; fo_signal := fo_signal o;
     fo_other := fo_other o |}.
Definition with_body (b : Body) (o : FetchOptions) : FetchOptions :=
  {| fo_method := fo_method o; fo_headers := fo_headers o; fo_body := Some b;
     fo_credentials := fo_credentials o; fo_signal := fo_signal o;
     fo_other := fo_other o |}.
Definition with_credentials (c : string) (o : FetchOptions) : FetchOptions :=
  {| fo_method := fo_method o; fo_headers := fo_headers o; fo_body := fo_body o;
     fo_credentials := Some c; fo_signal := fo_signal o;
     fo_other := fo_other o |}.
Definition with_signal (s : Signal) (o : FetchOptions) : FetchOptions :=
  {| fo_method := fo_method o; fo_headers := fo_headers o; fo_body := fo_body o;
     fo_credentials := fo_credentials o; fo_signal := Some s;
     fo_other := fo_other o |}.

(** The headers of an options bag that has them. *)
Definition headers_of (o : FetchOptions) : Headers := headers_or_empty (fo_headers o).

(** A fetch capability, named by an identifier. *)
Record Fetcher : Type := { fetcher_uid : nat }.

(** The globals the code probes: [fetch], [window], [AbortController]. *)
Record Env : Type := {
  global_fetch : option Fetcher;
  has_window : bool;
  has_AbortController : bool
}.

(** The options a link is constructed with; [lo_multipart] is read by
    [createUploadLink] only. *)
Record LinkOptions : Type := {
  lo_multipart : bool;
  lo_uri : option string;
  lo_fetch : option Fetcher;
  lo_includeExtensions : bool;
  lo_credentials : option string;
  lo_headers : option Headers;
  lo_fetchOptions : option FetchOptions
}.

Definition no_link_options : LinkOptions :=
  {| lo_multipart := false; lo_uri := None; lo_fetch := None;
     lo_includeExtensions := false; lo_credentials := None;
     lo_headers := None; lo_fetchOptions := None |}.

Record HttpOptions : Type := {
  includeQuery : option bool;
  includeExtensions : option bool
}.

(** [{ ...defaultHttpOptions, ...httpOptions }], read field by field. *)
Definition defaultHttpOptions_includeQuery : bool := true.
Definition defaultHttpOptions_includeExtensions : bool := false.
Definition http_includeQuery (h : HttpOptions) : bool :=
  default defaultHttpOptions_includeQuery (includeQuery h).
Definition http_includeExtensions (h : HttpOptions) : bool :=
  default defaultHttpOptions_includeExtensions (includeExtensions h).

(** What [getContext()] returns. *)
Record Context : Type := {
  cx_uri : option string;
  cx_credentials : option string;
  cx_headers : option Headers;
  cx_fetchOptions : option FetchOptions;
  cx_http : option HttpOptions
}.

Definition no_context : Context :=
  {| cx_uri := None; cx_credentials := None; cx_headers := None;
     cx_fetchOptions := None; cx_http := None |}.

(** One invocation of the fetch capability. *)
Record FetchCall : Type := {
  fc_fetcher : Fetcher;
  fc_uri : string;
  fc_options : FetchOptions
}.

(** ** Construction-time helpers *)

Definition fetch_guidance (library : string) : string :=
  "fetch is not found globally and no fetcher passed, to fix pass a fetch for
      your environment like https://www.npmjs.com/package/" +:+ library +:+ ".
      For example:
        import fetch from '" +:+ library +:+ "';
        import { createUploadLink } from 'apollo-link-http';
        const link = createUploadLink({ uri: '/graphql', fetch: fetch });
      ".

Definition warnIfNoFetch (env : Env) (fetcher : option Fetcher)
    : Result JsError unit :=
  if negb (bool_decide (is_Some fetcher))
     && negb (bool_decide (is_Some (global_fetch env)))
  then
    let library := if negb (has_window env) then "node-fetch" else "unfetch" in
    Threw (new_Error "Error" (fetch_guidance library))
  else Returned tt.

(** [{ controller, signal }]; [None] is the [false] the source returns
    where [AbortController] is not defined. *)
Record SignalPair : Type := {
  controller : option Controller;
  signal : option Signal
}.

Definition createSignalIfSupported (env : Env) : SignalPair :=
  if negb (has_AbortController env)
  then {| controller := None; signal := None |}
  else
    let controller := AbortController_new in
    let signal := signal_of controller in
    {| controller := Some controller; signal := Some signal |}.

(** Reading the global [fetch]: a ReferenceError where it is not
    defined. *)
Definition read_global_fetch (env : Env) : Result JsError Fetcher :=
  match global_fetch env with
  | Some f => Returned f
  | None => Threw (ReferenceError "fetch")
  end.

(** [{ "0": [path0], "1": [path1], ... }], the reduce over [files]. *)
Definition files_map (files : list ExtractedFile) : JsObject :=
  fold_left
    (fun map (entry : nat * ExtractedFile) =>
       obj_set (pretty (fst entry))
               (VArr [VStr (path_string (path (snd entry)))]) map)
    (imap (fun index f => (index, f)) files) [].

(** [files.forEach(({ file }, index) => body.append(index, file, file.name))] *)
Definition file_parts (files : list ExtractedFile) : list (string * Part) :=
  imap (fun (index : nat) f => (pretty index, PFile (file f) (file_name (file f)))) files.

(** ** jsonUploadLink *)

(** The variables the returned link closes over. *)
Record JsonLink : Type := {
  jl_includeExtensions : bool;
  linkUri : string;
  linkCredentials : option string;
  linkHeaders : option Headers;
  linkFetchOptions : FetchOptions;
  linkFetch : Fetcher
}.

(** The parameter defaults are evaluated when the link is constructed;
    the default of [fetch] reads the global. *)
Definition jsonUploadLink (env : Env) (lo : LinkOptions) : Result JsError JsonLink :=
  let linkUri := default "/graphql" (lo_uri lo) in
  let linkFetchOptions := default no_options (lo_fetchOptions lo) in
  linkFetch ← match lo_fetch lo with
              | Some f => Returned f
              | None => read_global_fetch env
              end;
  Returned {| jl_includeExtensions := lo_includeExtensions lo;
              linkUri := linkUri;
              linkCredentials := lo_credentials lo;
              linkHeaders := lo_headers lo;
              linkFetchOptions := linkFetchOptions;
              linkFetch := linkFetch |}.

Definition requestOperation (l : JsonLink) (op : Operation) : JsObject :=
  [("query", VStr (print (query op)))]
  ++ (if truthy_string (operationName op)
      then [("operationName", VStr (String_of (operationName op)))] else [])
  ++ (if negb (Nat.eqb (length (obj_keys (variables op))) 0)
      then [("variables", VObj (variables op))] else [])
  ++ match extensions op with
     | Some ext => if jl_includeExtensions l then [("extensions", VObj ext)] else []
     | None => []
     end.

(** The [headers] literal of [fetchOptions]. *)
Definition json_mergedHeaders (l : JsonLink) (ctx : Context) : Headers :=
  let contextFetchOptions := default no_options (cx_fetchOptions ctx) in
  spread_headers
    (spread_headers
       (spread_headers (headers_of (linkFetchOptions l))
                       (headers_of contextFetchOptions))
       (headers_or_empty (linkHeaders l)))
    (headers_or_empty (cx_headers ctx)).

(** The [fetchOptions] object before a body is set: the spread of the
    link and context options, the merged headers, the method, and the
    credentials when they are truthy. *)
Definition json_fetchOptions (l : JsonLink) (ctx : Context) : FetchOptions :=
  let credentials := later (linkCredentials l) (cx_credentials ctx) in
  let contextFetchOptions := default no_options (cx_fetchOptions ctx) in
  let fetchOptions :=
    with_method "POST"
      (with_headers (json_mergedHeaders l ctx)
         (spread (linkFetchOptions l) contextFetchOptions)) in
  if truthy_string credentials
  then with_credentials (String_of credentials) fetchOptions
  else fetchOptions.

(** The subscriber, up to the call of [linkFetch]. *)
Definition jsonUploadLink_request (l : JsonLink) (op : Operation) (ctx : Context)
    : Result JsError FetchCall :=
  let requestOperation := requestOperation l op in
  let files := extractFiles (VObj requestOperation) in
  let uri := default (linkUri l) (cx_uri ctx) in
  let fetchOptions := json_fetchOptions l ctx in
  fetchOptions ←
    (if negb (Nat.eqb (length files) 0) then
       operations ← JSON_stringify (VObj requestOperation);
       map ← JSON_stringify (VObj (files_map files));
       Returned
         (with_body
            (FormData ([("operations", PText operations); ("map", PText map)]
                         ++ file_parts files))
            fetchOptions)
     else
       let fetchOptions :=
         with_headers (<["content-type" := "application/json"]> (headers_of fetchOptions))
                      fetchOptions in
       text ← JSON_stringify (VObj requestOperation);
       Returned (with_body (BodyText text) fetchOptions));
  Returned {| fc_fetcher := linkFetch l; fc_uri := uri; fc_options := fetchOptions |}.

(** ** Observers and the settlement of a fetch *)

Inductive ObserverCall : Type :=
| next (result : value)
| complete
| error (e : JsError).

(** How the network settles a fetch: the promise is fulfilled with a
    response whose body is then read to the end, it is fulfilled with a
    response whose body read ([response.text()], [response.json()])
    rejects, as when the connection drops or the request is aborted
    once the headers are in, or it is rejected. *)
Inductive Settlement : Type :=
| fulfilled (response : Response)
| fulfilled_unread (response : Response) (reason : JsError)
| rejected (reason : JsError).

(** What the handlers attached to the fetch promise do once it settles:
    the response written to the context, and the calls on the observer
    in order. *)
Record Handled : Type := {
  context_response : option Response;
  observer_calls : list ObserverCall
}.

(** [response.json()]. *)
Definition response_json (response : Response) : Result JsError value :=
  match JSON_parse (bodyText response) with
  | Some v => Returned v
  | None => Threw SyntaxError
  end.

Definition jsonUploadLink_settle (s : Settlement) : Handled :=
  match s with
  | fulfilled response =>
      let parsed :=
        if negb (ok response)
        then Threw (new_Error "Error"
                      (pretty (status response) +:+ " (" +:+ statusText response +:+ ")"))
        else response_json response in
      {| context_response := Some response;
         observer_calls :=
           match parsed with
           | Returned result => [next result; complete]
           | Threw e => [error e]
           end |}
  | fulfilled_unread response reason =>
      {| context_response := Some response;
         observer_calls :=
           if negb (ok response)
           then [error (new_Error "Error"
                          (pretty (status response) +:+ " (" +:+ statusText response
                             +:+ ")"))]
           else [error reason] |}
  | rejected reason =>
      {| context_response := None; observer_calls := [error reason] |}
  end.

(** ** multipartUploadLink *)

(** The rest properties [...requestOptions] of the link options. *)
Record RequestOptions : Type := {
  ro_credentials : option string;
  ro_headers : option Headers;
  ro_fetchOptions : option FetchOptions
}.

(** The variables the returned link closes over. *)
Record UploadLink : Type := {
  ul_uri : string;
  ul_fetcher : Fetcher;
  ul_includeExtensions : bool;
  requestOptions : RequestOptions
}.

(** Construction as both [multipartUploadLink] and the earlier
    [createUploadLink] do it. *)
Definition construct_UploadLink (env : Env) (linkOptions : LinkOptions)
    : Result JsError UploadLink :=
  _ ← warnIfNoFetch env (lo_fetch linkOptions);
  fetcher ← match lo_fetch linkOptions with
            | Some f => Returned f
            | None => read_global_fetch env
            end;
  let uri := if negb (truthy_string (lo_uri linkOptions))
             then "/graphql" else String_of (lo_uri linkOptions) in
  Returned {| ul_uri := uri; ul_fetcher := fetcher;
              ul_includeExtensions := lo_includeExtensions linkOptions;
              requestOptions :=
                {| ro_credentials := lo_credentials linkOptions;
                   ro_headers := lo_headers linkOptions;
                   ro_fetchOptions := lo_fetchOptions linkOptions |} |}.

Definition multipartUploadLink (env : Env) (linkOptions : LinkOptions)
    : Result JsError UploadLink :=
  construct_UploadLink env linkOptions.

(** [String(extensions)] as [FormData.append] applies it: the
    conversion calls the object's [toString], which is
    [Object.prototype.toString] unless the object has a member of that
    name.  A member of a value is never a function, so an own [toString]
    is skipped as not callable, the inherited [valueOf] gives back the
    object, and the conversion throws a TypeError. *)
Definition String_of_object (o : option JsObject) : Result JsError string :=
  match o with
  | None => Returned "undefined"
  | Some members =>
      if obj_has "toString" members
      then Threw (TypeError "Cannot convert object to primitive value")
      else Returned "[object Object]"
  end.

(** The error thrown from the catch around [JSON.stringify(variables)]:
    a new Error with the caught one as its [parseError]. *)
Definition PayloadError (e : JsError) : JsError :=
  {| err_name := "Error";
     err_message := "Network request failed. Payload is not serializable: "
                      +:+ err_message e;
     err_response := None; err_statusCode := None; err_result := None;
     err_bodyText := None; err_parseError := Some e |}.

(** The appends after the files, the same in both form-building links:
    [operationName], [variables] inside its try, then [extensions] and
    [query] under their switches. *)
Definition append_operation (l : UploadLink) (op : Operation) (http : HttpOptions)
    (entries : list (string * Part)) : Result JsError (list (string * Part)) :=
  let entries := entries ++ [("operationName", PText (String_of (operationName op)))] in
  entries ←
    match JSON_stringify (VObj (variables op)) with
    | Returned text => Returned (entries ++ [("variables", PText text)])
    | Threw e => Threw (PayloadError e)
    end;
  entries ←
    (if (ul_includeExtensions l || http_includeExtensions http : bool)
     then text ← String_of_object (extensions op);
          Returned (entries ++ [("extensions", PText text)])
     else Returned entries);
  let entries :=
    if http_includeQuery http
    then entries ++ [("query", PText (print (query op)))]
    else entries in
  Returned entries.

(** From [let options = fetchOptions] to the attaching of the signal,
    the same in both form-building links but for the [headers] literal. *)
Definition fetcherOptions_of (l : UploadLink) (ctx : Context)
    (literal_headers : Headers) (body : Body) (sp : SignalPair) : FetchOptions :=
  let options := default no_options (cx_fetchOptions ctx) in
  let options :=
    match ro_fetchOptions (requestOptions l) with
    | Some linkFetchOptions => spread linkFetchOptions options
    | None => options
    end in
  let fetcherOptions :=
    with_body body
      (with_headers literal_headers
         (spread (with_method "POST" no_options) options)) in
  let fetcherOptions :=
    if truthy_string (ro_credentials (requestOptions l))
    then with_credentials (String_of (ro_credentials (requestOptions l))) fetcherOptions
    else fetcherOptions in
  let fetcherOptions :=
    if truthy_string (cx_credentials ctx)
    then with_credentials (String_of (cx_credentials ctx)) fetcherOptions
    else fetcherOptions in
  let fetcherOptions :=
    match ro_headers (requestOptions l) with
    | Some h => with_headers (spread_headers (headers_of fetcherOptions) h) fetcherOptions
    | None => fetcherOptions
    end in
  let fetcherOptions :=
    match cx_headers ctx with
    | Some h => with_headers (spread_headers (headers_of fetcherOptions) h) fetcherOptions
    | None => fetcherOptions
    end in
  match controller sp, signal sp with
  | Some _, Some s => with_signal s fetcherOptions
  | _, _ => fetcherOptions
  end.

(** A subscription that reached the fetch call: the call and the
    controller its teardown closes over. *)
Record Subscription : Type := {
  sub_call : FetchCall;
  sub_controller : option Controller
}.

Definition subscribe_UploadLink (env : Env) (l : UploadLink) (ctx : Context)
    (literal_headers : Headers) (entries : list (string * Part)) : Subscription :=
  let sp := createSignalIfSupported env in
  let uri := if truthy_string (cx_uri ctx)
             then String_of (cx_uri ctx) else ul_uri l in
  {| sub_call :=
       {| fc_fetcher := ul_fetcher l; fc_uri := uri;
          fc_options := fetcherOptions_of l ctx literal_headers (FormData entries) sp |};
     sub_controller := controller sp |}.

Definition multipart_literal_headers : Headers :=
  {[ "accept" := "*/*"; "content-type" := "multipart/form-data" ]}.

(** The subscriber, up to the call of [fetcher]. *)
Definition multipartUploadLink_request (env : Env) (l : UploadLink)
    (operation : Operation) (ctx : Context) : Result JsError Subscription :=
  let http := default {| includeQuery := None; includeExtensions := None |} (cx_http ctx) in
  let files := extractFiles (VObj (variables operation)) in
  files_text ← JSON_stringify (VObj (files_map files));
  let entries := [("files", PText files_text)] ++ file_parts files in
  entries ← append_operation l operation http entries;
  Returned (subscribe_UploadLink env l ctx multipart_literal_headers entries).

(** The handlers on the fetch promise, the same in both form-building
    links. *)
Definition UploadLink_settle (operation : Operation) (s : Settlement) : Handled :=
  match s with
  | fulfilled response =>
      {| context_response := Some response;
         observer_calls :=
           match parseAndCheckResponse operation response with
           | Returned result => [next result; complete]
           | Threw err =>
               if String.eqb (err_name err) "AbortError" then [] else [error err]
           end |}
  | fulfilled_unread response err =>
      {| context_response := Some response;
         observer_calls :=
           if String.eqb (err_name err) "AbortError" then [] else [error err] |}
  | rejected err =>
      {| context_response := None;
         observer_calls :=
           if String.eqb (err_name err) "AbortError" then [] else [error err] |}
  end.

(** The function the subscriber returns, run on unsubscribe: the
    controllers it aborts. *)
Definition UploadLink_teardown (sub : Subscription) : list Controller :=
  match sub_controller sub with
  | Some c => [c]
  | None => []
  end.

(** [jsonUploadLink]'s subscriber returns nothing, so unsubscribing runs
    no code of the link. *)
Definition jsonUploadLink_teardown (call : FetchCall) : list Controller := [].

(** ** createUploadLink *)

Inductive Link : Type :=
| multipart_link (l : UploadLink)
| json_link (l : JsonLink).

(** What [createUploadLink] is called with: an options object, or
    nothing.  Its parameter is the pattern [{ multipart, ...props }]
    with no default, so a call without an argument throws a TypeError
    on destructuring [undefined]; [jsonUploadLink] and
    [multipartUploadLink] default theirs to [{}]. *)
Inductive Argument : Type :=
| no_argument
| options_object (options : LinkOptions).

Coercion options_object : LinkOptions >-> Argument.

Definition createUploadLink (env : Env) (argument : Argument) : Result JsError Link :=
  match argument with
  | no_argument =>
      Threw (TypeError "Cannot destructure property 'multipart' of 'undefined'")
  | options_object options =>
      if lo_multipart options
      then l ← multipartUploadLink env options; Returned (multipart_link l)
      else l ← jsonUploadLink env options; Returned (json_link l)
  end.

(** ** The earlier createUploadLink *)

Module Part000.

Definition literal_headers : Headers := {[ "accept" := "*/*" ]}.

Definition createUploadLink (env : Env) (linkOptions : LinkOptions)
    : Result JsError UploadLink :=
  construct_UploadLink env linkOptions.

Definition createUploadLink_request (env : Env) (l : UploadLink)
    (operation : Operation) (ctx : Context) : Result JsError Subscription :=
  let http := default {| includeQuery := None; includeExtensions := None |} (cx_http ctx) in
  let files := extractFiles (VObj (variables operation)) in
  let entries :=
    if negb (Nat.eqb (length files) 0)
    then map (fun f => ("file", PFile (file f) (file_name (file f)))) files
    else [] in
  entries ← append_operation l operation http entries;
  Returned (subscribe_UploadLink env l ctx literal_headers entries).

End Part000.

(** ** Unsubscribing while the fetch is pending *)

Global Instance Controller_eq_dec : EqDecision Controller.
Proof. solve_decision. Defined.

(** The fetch standard: a fetch given the signal of an aborted
    controller rejects with an AbortError; any other fetch settles as
    the network has it. *)
Definition fetch_settlement (call : FetchCall) (aborted : list Controller)
    (network : Settlement) : Settlement :=
  match fo_signal (fc_options call) with
  | Some (signal_of c) =>
      if bool_decide (c ∈ aborted) then rejected AbortError else network
  | Some (caller_signal _) | None => network
  end.

(** Unsubscribe before the fetch settles, then let it settle: the
    controllers aborted and what the handlers then do. *)
Definition multipart_cancel_then_settle (operation : Operation)
    (sub : Subscription) (network : Settlement) : list Controller * Handled :=
  let aborted := UploadLink_teardown sub in
  (aborted, UploadLink_settle operation (fetch_settlement (sub_call sub) aborted network)).

Definition json_cancel_then_settle (call : FetchCall) (network : Settlement)
    : list Controller * Handled :=
  let aborted := jsonUploadLink_teardown call in
  (aborted, jsonUploadLink_settle (fetch_settlement call aborted network)).

(** ** The error taxonomy, as the objects the classifier throws *)

Definition NetworkError (response : Response) (result : value) : JsError :=
  {| err_name := "Error";
     err_message := "Response not successful: Received status code "
                      +:+ pretty (status response);
     err_response := Some response;
     err_statusCode := Some (status response);
     err_result := Some result;
     err_bodyText := None; err_parseError := None |}.

Definition ServerDataError (request : Operation) (response : Response)
    (result : value) : JsError :=
  {| err_name := "Error";
     err_message := "Server response was missing for query '"
                      +:+ String_of (operationName request) +:+ "'.";
     err_response := Some response;
     err_statusCode := Some (status response);
     err_result := Some result;
     err_bodyText := None; err_parseError := None |}.

Definition ParseError (response : Response) : JsError :=
  {| err_name := "SyntaxError";
     err_message := err_message SyntaxError;
     err_response := Some response;
     err_statusCode := Some (status response);
     err_result := None;
     err_bodyText := Some (bodyText response);
     err_parseError := None |}.

(** A parsed body names a member: it is an object with that member. *)
Definition has_member (k : string) (result : value) : bool :=
  match result with
  | VObj m => obj_has k m
  | _ => false
  end.

(** A parsed body on which [hasOwnProperty] can be called: not [null],
    and without a member that shadows the method. *)
Definition callable_receiver (result : value) : bool :=
  match result with
  | VNull => false
  | VObj m => negb (obj_has "hasOwnProperty" m)
  | _ => true
  end.

(** Header names compared without regard to case. *)
Definition lower_char (c : ascii) : ascii :=
  let n := nat_of_ascii c in
  if Nat.leb 65 n && Nat.leb n 90 then ascii_of_nat (n + 32) else c.

Fixpoint lower (s : string) : string :=
  match s with
  | EmptyString => EmptyString
  | String c r => String (lower_char c) (lower r)
  end.

(** The first of two optional values that is present. *)
Definition or_else {A : Type} (a b : option A) : option A :=
  match a with Some _ => a | None => b end.

(** ** Named parts of the definitions above, and sample inputs *)

(** Sample inputs. *)
Definition sample_query : Document := {| printed := "query Q { a }" |}.
Definition sample_operation : Operation :=
  {| operationName := Some "Q"; variables := [];
     query := sample_query; extensions := None |}.
Definition data_body : string := "{" +:+ quote "data" +:+ ":{}}".
Definition foo_body : string := "{" +:+ quote "foo" +:+ ":1}".
Definition response_of (code : Z) (body : string) : Response :=
  {| status := code; statusText := ""; bodyText := body |}.

Definition sample_fetcher : Fetcher := {| fetcher_uid := 0 |}.

Definition sample_JsonLink (headers : option Headers) : JsonLink :=
  {| jl_includeExtensions := false; linkUri := "/graphql";
     linkCredentials := None; linkHeaders := headers;
     linkFetchOptions := no_options; linkFetch := sample_fetcher |}.

Definition sample_UploadLink (headers : option Headers) : UploadLink :=
  {| ul_uri := "/graphql"; ul_fetcher := sample_fetcher;
     ul_includeExtensions := false;
     requestOptions := {| ro_credentials := None; ro_headers := headers;
                          ro_fetchOptions := None |} |}.

Definition context_with_headers (headers : Headers) : Context :=
  {| cx_uri := None; cx_credentials := None; cx_headers := Some headers;
     cx_fetchOptions := None; cx_http := None |}.

Definition browser_env : Env :=
  {| global_fetch := Some sample_fetcher; has_window := true;
     has_AbortController := true |}.

(** An environment with a global fetch and no [AbortController]. *)
Definition old_browser_env : Env :=
  {| global_fetch := Some sample_fetcher; has_window := true;
     has_AbortController := false |}.

(** An environment without a global fetch. *)
Definition node_env : Env :=
  {| global_fetch := None; has_window := false; has_AbortController := false |}.

(** The options the caller supplied, link options under context ones. *)
Definition caller_options (l : UploadLink) (ctx : Context) : FetchOptions :=
  let options := default no_options (cx_fetchOptions ctx) in
  match ro_fetchOptions (requestOptions l) with
  | Some linkFetchOptions => spread linkFetchOptions options
  | None => options
  end.

(** The inner loops of the recursive definitions, under names. *)
Definition extract_props (prefix : Path) : list (string * value) → list ExtractedFile :=
  fix props (m : list (string * value)) : list ExtractedFile :=
    match m with
    | [] => []
    | (k, x) :: r => extractFiles_from (prefix ++ [Key k]) x ++ props r
    end.

Definition extract_items (prefix : Path) : nat → list value → list ExtractedFile :=
  fix items (i : nat) (l : list value) : list ExtractedFile :=
    match l with
    | [] => []
    | x :: r => extractFiles_from (prefix ++ [Index i]) x ++ items (S i) r
    end.

Definition has_file_members : list (string * value) → bool :=
  fix any (m : list (string * value)) : bool :=
    match m with
    | [] => false
    | (_, x) :: r => has_file x || any r
    end.

Definition has_file_items : list value → bool :=
  fix any (l : list value) : bool :=
    match l with
    | [] => false
    | x :: r => has_file x || any r
    end.

Definition unique_keys_members : list (string * value) → Prop :=
  fix all (m : list (string * value)) : Prop :=
    match m with
    | [] => True
    | (_, x) :: r => unique_keys x ∧ all r
    end.

Definition unique_keys_items : list value → Prop :=
  fix all (l : list value) : Prop :=
    match l with
    | [] => True
    | x :: r => unique_keys x ∧ all r
    end.

Definition stringify_members : list (string * value) → option (list string) :=
  fix membs (m : list (string * value)) : option (list string) :=
    match m with
    | [] => Some []
    | (k, x) :: r =>
        match stringify_text x, membs r with
        | Some sx, Some sr => Some ((quote k +:+ ":" +:+ sx) :: sr)
        | _, _ => None
        end
    end.

(** One entry of the files map. *)
Definition files_entry (index : nat) (f : ExtractedFile) : string * value :=
  (pretty index, VArr [VStr (path_string (path f))]).

(** The extensions that go into the request record. *)
Definition included_extensions (l : JsonLink) (op : Operation) : option JsObject :=
  match extensions op with
  | Some ext => if jl_includeExtensions l then Some ext else None
  | None => None
  end.

(** The names of the fields of a form body. *)
Definition form_fields (body : option Body) : list string :=
  match body with
  | Some (FormData entries) => map fst entries
  | Some (BodyText _) | None => []
  end.

Definition report : File := {| file_name := "report.pdf"; file_uid := 1 |}.

(** Variables [{ input: { docs: ["x", report] } }]. *)
Definition upload_operation : Operation :=
  {| operationName := Some "Up";
     variables := [("input", VObj [("docs", VArr [VStr "x"; VFile report])])];
     query := {| printed := "mutation Up { up }" |};
     extensions := None |}.

Definition bigint_operation : Operation :=
  {| operationName := Some "Q"; variables := [("n", VBigInt 1)];
     query := sample_query; extensions := None |}.

(** The conditional append of [extensions] on its own: the entry it
    adds, none when both switches are off, or the TypeError of the
    conversion to a string. *)
Definition extensions_entries (l : UploadLink) (op : Operation) (http : HttpOptions)
    : Result JsError (list (string * Part)) :=
  if (ul_includeExtensions l || http_includeExtensions http : bool)
  then text ← String_of_object (extensions op);
       Returned [("extensions", PText text)]
  else Returned [].

(** The extensions can be appended: they are not to be sent, or they
    are absent, or they have no member named [toString]. *)
Definition extensions_appendable (l : UploadLink) (op : Operation) (http : HttpOptions)
    : bool :=
  negb (ul_includeExtensions l || http_includeExtensions http)
  || match extensions op with
     | Some members => negb (obj_has "toString" members)
     | None => true
     end.


(** The [http] options of a context, [{}] when it has none. *)
Definition http_of (ctx : Context) : HttpOptions :=
  default {| includeQuery := None; includeExtensions := None |} (cx_http ctx).

(** A parser that consumes at least one character when it succeeds. *)
Definition consuming {A : Type} (p : Parser A) : Prop :=
  ∀ s a r, p s = Some (a, r) → (length r < length s)%nat.

(** The fetch options given at construction and in a context, [{}]
    where there are none. *)
Definition link_fetchOptions (options : LinkOptions) : FetchOptions :=
  default no_options (lo_fetchOptions options).
Definition context_fetchOptions (ctx : Context) : FetchOptions :=
  default no_options (cx_fetchOptions ctx).


(** An operation with its extensions replaced. *)
Definition with_extensions (ext : option JsObject) (op : Operation) : Operation :=
  {| operationName := operationName op; variables := variables op;
     query := query op; extensions := ext |}.

(** A context and link options exercising every override. *)
Definition busy_fetchOptions (method credentials : option string) (uid : nat)
    : FetchOptions :=
  {| fo_method := method; fo_headers := Some {[ "x-from" := "options" ]};
     fo_body := Some (BodyText "caller body"); fo_credentials := credentials;
     fo_signal := Some (caller_signal uid);
     fo_other := {[ "mode" := "cors" ]} |}.
Definition busy_link_options : LinkOptions :=
  {| lo_multipart := true; lo_uri := Some ""; lo_fetch := Some {| fetcher_uid := 7 |};
     lo_includeExtensions := false; lo_credentials := Some "include";
     lo_headers := None;
     lo_fetchOptions := Some (busy_fetchOptions (Some "PUT") (Some "omit") 1) |}.
Definition busy_context : Context :=
  {| cx_uri := Some ""; cx_credentials := Some ""; cx_headers := None;
     cx_fetchOptions := Some (busy_fetchOptions None None 2);
     cx_http := Some {| includeQuery := Some false; includeExtensions := Some true |} |}.

(** The text of one entry of the serialised files map. *)
Definition files_entry_text (index : nat) (f : ExtractedFile) : string :=
  quote (pretty index) +:+ ":" +:+ "[" +:+ quote (path_string (path f)) +:+ "]".

(** Two files of one upload. *)
Definition two_files : list ExtractedFile :=
  [{| path := [Key "a"]; file := report |};
   {| path := [Key "b"; Index 0]; file := {| file_name := "cv.txt"; file_uid := 2 |} |}].

(** * Properties *)

(** ** The parser's fuel *)

Lemma skip_ws_length (s : list ascii) : (length (skip_ws s) ≤ length s)%nat.
Proof.
  induction s as [| c s IH]; simpl; [lia |].
  destruct (is_ws c); simpl; lia.
Qed.

Lemma span_digits_length (s d r : list ascii) :
  span_digits s = (d, r) → length s = (length d + length r)%nat.
Proof.
  revert d r. induction s as [| c s IH]; intros d r Hspan; simpl in Hspan.
  - by inversion Hspan.
  - destruct (is_digit c).
    + destruct (span_digits s) as [d' r'] eqn:Hrec. inversion Hspan; subst.
      simpl. rewrite (IH d' r eq_refl). lia.
    + inversion Hspan; subst. reflexivity.
Qed.

Lemma lex_number_shorter (s lexeme r : list ascii) :
  lex_number s = Some (lexeme, r) → (length r < length s)%nat.
Proof.
  unfold lex_number. intros Hlex.
  destruct (match s with
            | c :: r0 => if Ascii.eqb c "-" then ([c], r0) else ([], s)
            | [] => ([], s)
            end) as [sign s1] eqn:Hsign.
  assert (Hs1 : (length s1 ≤ length s)%nat).
  { destruct s as [| c r0]; [by inversion Hsign |].
    destruct (Ascii.eqb c "-"); inversion Hsign; subst; simpl; lia. }
  destruct (span_digits s1) as [int s2] eqn:Hint.
  apply span_digits_length in Hint.
  destruct int as [| d ds]; [discriminate |]. simpl in Hint.
  destruct (Ascii.eqb d "0" && negb (Nat.eqb (length ds) 0)); [discriminate |].
  destruct (match s2 with
            | c :: r0 =>
                if Ascii.eqb c "."
                then match span_digits r0 with
                     | ([], _) => None
                     | (f, s3) => Some (c :: f, s3)
                     end
                else Some ([], s2)
            | [] => Some ([], s2)
            end) as [[f s3] |] eqn:Hfrac; [| discriminate].
  assert (Hs3 : (length s3 ≤ length s2)%nat).
  { destruct s2 as [| c r0]; [by inversion Hfrac |].
    destruct (Ascii.eqb c ".").
    - destruct (span_digits r0) as [f' s3'] eqn:Hf. apply span_digits_length in Hf.
      destruct f'; [discriminate |]. inversion Hfrac; subst. simpl in *. lia.
    - inversion Hfrac; subst. lia. }
  destruct s3 as [| c r0]; [inversion Hlex; subst; simpl in *; lia |].
  destruct (Ascii.eqb c "e" || Ascii.eqb c "E").
  - destruct (match r0 with
              | c' :: r'' =>
                  if Ascii.eqb c' "+" || Ascii.eqb c' "-" then ([c'], r'') else ([], r0)
              | [] => ([], r0)
              end) as [sg r'] eqn:Hsg.
    assert (Hr' : (length r' ≤ length r0)%nat).
    { destruct r0 as [| c' r'']; [by inversion Hsg |].
      destruct (Ascii.eqb c' "+" || Ascii.eqb c' "-"); inversion Hsg; subst; simpl; lia. }
    destruct (span_digits r') as [e s4] eqn:He. apply span_digits_length in He.
    destruct e; [discriminate |]. inversion Hlex; subst. simpl in *. lia.
  - inversion Hlex; subst. simpl in *. lia.
Qed.

Lemma lex_string_shorter (s cs r : list ascii) :
  lex_string s = Some (cs, r) → (length r < length s)%nat.
Proof.
  remember (length s) as n eqn:Hn. revert s cs r Hn.
  induction (lt_wf n) as [n _ IH]. intros s cs r Hn Hlex. subst n.
  assert (Hrec : ∀ s' cs' r', (length s' < length s)%nat →
            lex_string s' = Some (cs', r') → (length r' < length s')%nat)
    by (intros s' cs' r' Hlt; exact (IH _ Hlt s' cs' r' eq_refl)).
  clear IH. destruct s as [| c s]; [discriminate |]. simpl in Hlex.
  destruct (Ascii.eqb c dquote); [inversion Hlex; subst; simpl; lia |].
  destruct (Ascii.eqb c backslash).
  - destruct s as [| e r1]; [discriminate |].
    assert (Hsimple : ∀ x, match lex_string r1 with
                           | Some (cs0, rest) => Some (x :: cs0, rest)
                           | None => None
                           end = Some (cs, r) → (length r < length (c :: e :: r1))%nat).
    { intros x Hx. destruct (lex_string r1) as [[cs0 rest] |] eqn:Hr1; [| discriminate].
      inversion Hx; subst. apply Hrec in Hr1; simpl in *; lia. }
    repeat match type of Hlex with
           | (if ?b then _ else _) = _ =>
               destruct b; [first [by eapply Hsimple | idtac] |]
           end; try discriminate.
    destruct r1 as [| h1 [| h2 [| h3 [| h4 r2]]]]; try discriminate.
    destruct (hex_value h1), (hex_value h2), (hex_value h3), (hex_value h4);
      try discriminate.
    destruct (lex_string r2) as [[cs0 rest] |] eqn:Hr2; [| discriminate].
    inversion Hlex; subst. apply Hrec in Hr2; simpl in *; lia.
  - destruct (Nat.ltb (nat_of_ascii c) 32); [discriminate |].
    destruct (lex_string s) as [[cs0 rest] |] eqn:Hs; [| discriminate].
    inversion Hlex; subst. apply Hrec in Hs; simpl in *; lia.
Qed.

Lemma starts_with_length (p s r : list ascii) :
  starts_with p s = Some r → length s = (length p + length r)%nat.
Proof.
  revert s. induction p as [| a p IH]; intros s Hs; simpl in Hs.
  - by inversion Hs.
  - destruct s as [| b s]; [discriminate |].
    destruct (Ascii.eqb a b); [| discriminate]. simpl. by rewrite (IH s Hs).
Qed.

Lemma skip_ws_cons_length (s r : list ascii) (c : ascii) :
  skip_ws s = c :: r → (length r < length s)%nat.
Proof. intros Hs. pose proof (skip_ws_length s) as Hle. rewrite Hs in Hle. simpl in Hle. lia. Qed.

Lemma parse_elements_consuming (pv : Parser value) (fuel : nat) :
  consuming pv → consuming (parse_elements pv fuel).
Proof.
  intros Hpv. induction fuel as [| n IH]; intros s vs r Hparse; [discriminate |].
  simpl in Hparse.
  destruct (pv s) as [[v r1] |] eqn:Hv; [| discriminate]. apply Hpv in Hv.
  destruct (skip_ws r1) as [| c r2] eqn:Hws; [discriminate |].
  apply skip_ws_cons_length in Hws.
  destruct (Ascii.eqb c ",").
  - destruct (parse_elements pv n r2) as [[vs' rest] |] eqn:Hrec; [| discriminate].
    inversion Hparse; subst. apply IH in Hrec. lia.
  - destruct (Ascii.eqb c "]"); [| discriminate]. inversion Hparse; subst. lia.
Qed.

Lemma parse_members_consuming (pv : Parser value) (fuel : nat) :
  consuming pv → consuming (parse_members pv fuel).
Proof.
  intros Hpv. induction fuel as [| n IH]; intros s kvs r Hparse; [discriminate |].
  simpl in Hparse.
  destruct (skip_ws s) as [| q r0] eqn:Hws0; [discriminate |].
  apply skip_ws_cons_length in Hws0.
  destruct (Ascii.eqb q dquote); [| discriminate].
  destruct (lex_string r0) as [[k r1] |] eqn:Hk; [| discriminate].
  apply lex_string_shorter in Hk.
  destruct (skip_ws r1) as [| colon r2] eqn:Hws1; [discriminate |].
  apply skip_ws_cons_length in Hws1.
  destruct (Ascii.eqb colon ":"); [| discriminate].
  destruct (pv r2) as [[v r3] |] eqn:Hv; [| discriminate]. apply Hpv in Hv.
  destruct (skip_ws r3) as [| c r4] eqn:Hws3; [discriminate |].
  apply skip_ws_cons_length in Hws3.
  destruct (Ascii.eqb c ",").
  - destruct (parse_members pv n r4) as [[kvs' rest] |] eqn:Hrec; [| discriminate].
    inversion Hparse; subst. apply IH in Hrec. lia.
  - destruct (Ascii.eqb c "}"); [| discriminate]. inversion Hparse; subst. lia.
Qed.

Lemma parse_value_S (n : nat) (s : list ascii) :
  parse_value (S n) s =
    match skip_ws s with
    | [] => None
    | c :: r =>
        if Ascii.eqb c "{" then
          match skip_ws r with
          | c' :: r' =>
              if Ascii.eqb c' "}" then Some (VObj [], r')
              else match parse_members (parse_value n) n r with
                   | Some (kvs, rest) => Some (VObj (object_of_members kvs), rest)
                   | None => None
                   end
          | [] => None
          end
        else if Ascii.eqb c "[" then
          match skip_ws r with
          | c' :: r' =>
              if Ascii.eqb c' "]" then Some (VArr [], r')
              else match parse_elements (parse_value n) n r with
                   | Some (vs, rest) => Some (VArr vs, rest)
                   | None => None
                   end
          | [] => None
          end
        else if Ascii.eqb c dquote then
          match lex_string r with
          | Some (cs, rest) => Some (VStr (string_of_list_ascii cs), rest)
          | None => None
          end
        else if Ascii.eqb c "-" || is_digit c then
          match lex_number (c :: r) with
          | Some (lexeme, rest) => Some (VNum (string_of_list_ascii lexeme), rest)
          | None => None
          end
        else
          match starts_with (list_ascii_of_string "true") (c :: r),
                starts_with (list_ascii_of_string "false") (c :: r),
                starts_with (list_ascii_of_string "null") (c :: r) with
          | Some rest, _, _ => Some (VBool true, rest)
          | _, Some rest, _ => Some (VBool false, rest)
          | _, _, Some rest => Some (VNull, rest)
          | _, _, _ => None
          end
    end.
Proof. reflexivity. Qed.

Lemma parse_value_consuming (fuel : nat) : consuming (parse_value fuel).
Proof.
  induction fuel as [| n IH]; intros s v r Hparse; [discriminate |].
  rewrite parse_value_S in Hparse.
  destruct (skip_ws s) as [| c r0] eqn:Hws; [discriminate |].
  pose proof (skip_ws_cons_length _ _ _ Hws) as Hr0.
  destruct (Ascii.eqb c "{").
  { destruct (skip_ws r0) as [| c' r'] eqn:Hws'; [discriminate |].
    apply skip_ws_cons_length in Hws'.
    destruct (Ascii.eqb c' "}"); [inversion Hparse; subst; lia |].
    destruct (parse_members (parse_value n) n r0) as [[kvs rest] |] eqn:Hm;
      [| discriminate].
    inversion Hparse; subst. apply parse_members_consuming in Hm; [lia | exact IH]. }
  destruct (Ascii.eqb c "[").
  { destruct (skip_ws r0) as [| c' r'] eqn:Hws'; [discriminate |].
    apply skip_ws_cons_length in Hws'.
    destruct (Ascii.eqb c' "]"); [inversion Hparse; subst; lia |].
    destruct (parse_elements (parse_value n) n r0) as [[vs rest] |] eqn:He;
      [| discriminate].
    inversion Hparse; subst. apply parse_elements_consuming in He; [lia | exact IH]. }
  destruct (Ascii.eqb c dquote).
  { destruct (lex_string r0) as [[cs rest] |] eqn:Hstr; [| discriminate].
    inversion Hparse; subst. apply lex_string_shorter in Hstr. lia. }
  assert (Hlen : (length (c :: r0) ≤ length s)%nat)
    by (rewrite <- Hws; apply skip_ws_length).
  destruct (Ascii.eqb c "-" || is_digit c).
  { destruct (lex_number (c :: r0)) as [[lexeme rest] |] eqn:Hnum; [| discriminate].
    inversion Hparse; subst. apply lex_number_shorter in Hnum. lia. }
  destruct (starts_with (list_ascii_of_string "true") (c :: r0)) as [rest |] eqn:Ht.
  { inversion Hparse; subst. apply starts_with_length in Ht.
    change (length (list_ascii_of_string "true")) with 4%nat in Ht. lia. }
  destruct (starts_with (list_ascii_of_string "false") (c :: r0)) as [rest |] eqn:Hf.
  { inversion Hparse; subst. apply starts_with_length in Hf.
    change (length (list_ascii_of_string "false")) with 5%nat in Hf. lia. }
  destruct (starts_with (list_ascii_of_string "null") (c :: r0)) as [rest |] eqn:Hnl;
    [| discriminate].
  inversion Hparse; subst. apply starts_with_length in Hnl.
  change (length (list_ascii_of_string "null")) with 4%nat in Hnl. lia.
Qed.

Lemma parse_elements_fuel (pv1 pv2 : Parser value) (bound : nat) :
  (∀ s, (length s ≤ bound)%nat → pv1 s = pv2 s) → consuming pv1 →
  ∀ f1 f2 s, (length s ≤ bound)%nat → (length s < f1)%nat → (length s < f2)%nat →
    parse_elements pv1 f1 s = parse_elements pv2 f2 s.
Proof.
  intros Hpv Hcons. induction f1 as [| f1 IH]; intros f2 s Hb H1 H2; [lia |].
  destruct f2 as [| f2]; [lia |]. simpl. rewrite <- (Hpv s Hb).
  destruct (pv1 s) as [[v r1] |] eqn:Hv; [| reflexivity]. apply Hcons in Hv.
  destruct (skip_ws r1) as [| c r2] eqn:Hws; [reflexivity |].
  apply skip_ws_cons_length in Hws.
  destruct (Ascii.eqb c ","); [| reflexivity].
  rewrite (IH f2 r2) by lia. reflexivity.
Qed.

Lemma parse_members_fuel (pv1 pv2 : Parser value) (bound : nat) :
  (∀ s, (length s ≤ bound)%nat → pv1 s = pv2 s) → consuming pv1 →
  ∀ f1 f2 s, (length s ≤ bound)%nat → (length s < f1)%nat → (length s < f2)%nat →
    parse_members pv1 f1 s = parse_members pv2 f2 s.
Proof.
  intros Hpv Hcons. induction f1 as [| f1 IH]; intros f2 s Hb H1 H2; [lia |].
  destruct f2 as [| f2]; [lia |]. simpl.
  destruct (skip_ws s) as [| q r0] eqn:Hws0; [reflexivity |].
  apply skip_ws_cons_length in Hws0.
  destruct (Ascii.eqb q dquote); [| reflexivity].
  destruct (lex_string r0) as [[k r1] |] eqn:Hk; [| reflexivity].
  apply lex_string_shorter in Hk.
  destruct (skip_ws r1) as [| colon r2] eqn:Hws1; [reflexivity |].
  apply skip_ws_cons_length in Hws1.
  destruct (Ascii.eqb colon ":"); [| reflexivity].
  rewrite <- (Hpv r2) by lia.
  destruct (pv1 r2) as [[v r3] |] eqn:Hv; [| reflexivity]. apply Hcons in Hv.
  destruct (skip_ws r3) as [| c r4] eqn:Hws3; [reflexivity |].
  apply skip_ws_cons_length in Hws3.
  destruct (Ascii.eqb c ","); [| reflexivity].
  rewrite (IH f2 r4) by lia. reflexivity.
Qed.

(** Fuel beyond the length of the text does not change the result. *)
Lemma parse_value_fuel (n : nat) :
  ∀ m s, (length s < n)%nat → (length s < m)%nat → parse_value n s = parse_value m s.
Proof.
  induction n as [| n IH]; intros m s Hn Hm; [lia |].
  destruct m as [| m]; [lia |]. rewrite !parse_value_S.
  destruct (skip_ws s) as [| c r0] eqn:Hws; [reflexivity |].
  apply skip_ws_cons_length in Hws.
  assert (Hsub : ∀ s', (length s' ≤ length r0)%nat → parse_value n s' = parse_value m s')
    by (intros s' Hs'; apply IH; lia).
  rewrite (parse_members_fuel (parse_value n) (parse_value m) (length r0) Hsub
             (parse_value_consuming n) n m r0) by lia.
  rewrite (parse_elements_fuel (parse_value n) (parse_value m) (length r0) Hsub
             (parse_value_consuming n) n m r0) by lia.
  reflexivity.
Qed.

(** [JSON_parse] gives what the parser gives with any larger fuel: a
    text it rejects is rejected for its content. *)
Lemma JSON_parse_fuel (text : string) (fuel : nat) :
  (length (list_ascii_of_string text) < fuel)%nat →
  JSON_parse text =
    match parse_value fuel (list_ascii_of_string text) with
    | Some (v, rest) => match skip_ws rest with [] => Some v | _ :: _ => None end
    | None => None
    end.
Proof.
  intros Hfuel. unfold JSON_parse.
  rewrite (parse_value_fuel (S (length (list_ascii_of_string text))) fuel) by lia.
  reflexivity.
Qed.

(** ** The classifier *)

Lemma existsb_indexed_keys_not_numeric (key : string) (n : nat) :
  (∀ i : nat, key ≠ pretty i) → key ≠ "length" →
  existsb (String.eqb key) (indexed_keys n) = false.
Proof.
  intros Hidx Hlen. apply not_true_is_false. intros Hex.
  apply existsb_exists in Hex as (k & Hin & Heq).
  apply String.eqb_eq in Heq. subst k.
  unfold indexed_keys in Hin. apply in_app_or in Hin as [Hin | Hin].
  - apply in_map_iff in Hin as (i & Hi & _). exact (Hidx i (eq_sym Hi)).
  - destruct Hin as [Hin | []]. exact (Hlen (eq_sym Hin)).
Qed.

Lemma pretty_nat_head_digit (i : nat) :
  ∃ c r, pretty i = String c r ∧ is_digit c = true.
Proof.
  unfold pretty, pretty_nat, pretty, pretty_N.
  generalize (N.of_nat i). intros n.
  destruct (decide (n = 0)%N) as [Heq | Hne].
  - exists "0"%char, EmptyString. split; reflexivity.
  -     assert (Hgo : ∀ x s, (∃ c r, s = String c r ∧ is_digit c = true) ∨ (x ≠ 0)%N →
                         ∃ c r, pretty_N_go x s = String c r ∧ is_digit c = true).
    { intros x. induction (N.lt_wf_0 x) as [x _ IH]. intros s Hs.
      destruct (decide (x = 0)%N) as [-> | Hx].
      - rewrite pretty_N_go_0. destruct Hs as [Hs | Hs]; [exact Hs | done].
      - rewrite pretty_N_go_step by lia. apply IH.
        + apply N.div_lt; lia.
        + left. eexists _, _. split; [reflexivity |].
          unfold pretty_N_char.
          assert (x `mod` 10 < 10)%N as Hlt by (apply N.mod_lt; lia).
          destruct (x `mod` 10)%N as [| p] eqn:Hm; [reflexivity |].
          do 4 (destruct p as [p | p |]; try reflexivity; try lia). }
    apply Hgo. right. exact Hne.
Qed.

Lemma hasOwnProperty_data (result : value) (key : string) :
  callable_receiver result = true →
  key = "data" ∨ key = "errors" →
  hasOwnProperty result key = Returned (has_member key result).
Proof.
  intros Hcall Hkey.
  assert (Hnum : ∀ i : nat, key ≠ pretty i).
  { intros i Heq. destruct (pretty_nat_head_digit i) as (c & r & Hp & Hd).
    rewrite Hp in Heq. destruct Hkey; subst key; inversion Heq; subst c; discriminate. }
  assert (Hlen : key ≠ "length") by (destruct Hkey; subst key; discriminate).
  destruct result; simpl in *; try reflexivity; try discriminate.
  - by rewrite existsb_indexed_keys_not_numeric.
  - by rewrite existsb_indexed_keys_not_numeric.
  - by destruct (obj_has "hasOwnProperty" members).
Qed.

Lemma parseAndCheckResponse_unparsed (request : Operation) (response : Response) :
  JSON_parse (bodyText response) = None →
  parseAndCheckResponse request response = Threw (ParseError response).
Proof. intros Hparse. unfold parseAndCheckResponse. rewrite Hparse. reflexivity. Qed.

Lemma parseAndCheckResponse_not_successful
    (request : Operation) (response : Response) (result : value) :
  JSON_parse (bodyText response) = Some result →
  300 ≤ status response →
  parseAndCheckResponse request response = Threw (NetworkError response result).
Proof.
  intros Hparse Hstatus. unfold parseAndCheckResponse. rewrite Hparse. simpl.
  destruct (Z.leb_spec 300 (status response)); [reflexivity | lia].
Qed.

Lemma parseAndCheckResponse_envelope
    (request : Operation) (response : Response) (result : value) :
  JSON_parse (bodyText response) = Some result →
  status response < 300 →
  callable_receiver result = true →
  parseAndCheckResponse request response =
    if has_member "data" result || has_member "errors" result
    then Returned result
    else Threw (ServerDataError request response result).
Proof.
  intros Hparse Hstatus Hcall. unfold parseAndCheckResponse. rewrite Hparse. simpl.
  destruct (Z.leb_spec 300 (status response)); [lia |]. simpl.
  rewrite (hasOwnProperty_data result "data") by auto. simpl.
  destruct (has_member "data" result); [reflexivity |]. simpl.
  rewrite (hasOwnProperty_data result "errors") by auto. simpl.
  destruct (has_member "errors" result); reflexivity.
Qed.

(** C3 (as amended).  The classifier reads and parses the body first.
    A body that is not JSON gives a ParseError whatever the status.  For
    a body that parses: a status of 300 or more gives a NetworkError;
    below 300, a body on which [hasOwnProperty] can be called gives the
    parsed body back when it has a [data] member, and a ServerDataError
    when it has neither [data] nor [errors]. *)
Theorem parseAndCheckResponse_classification
    (request : Operation) (response : Response) :
  (JSON_parse (bodyText response) = None →
     parseAndCheckResponse request response = Threw (ParseError response))
  ∧ (∀ result, JSON_parse (bodyText response) = Some result →
       (300 ≤ status response →
          parseAndCheckResponse request response
            = Threw (NetworkError response result))
       ∧ (status response < 300 → callable_receiver result = true →
            (has_member "data" result = true →
               parseAndCheckResponse request response = Returned result)
            ∧ (has_member "data" result = false →
               has_member "errors" result = false →
               parseAndCheckResponse request response
                 = Threw (ServerDataError request response result)))).
Proof.
  split; [apply parseAndCheckResponse_unparsed |].
  intros result Hparse. split.
  - apply parseAndCheckResponse_not_successful, Hparse.
  - intros Hstatus Hcall.
    pose proof (parseAndCheckResponse_envelope request response result
                  Hparse Hstatus Hcall) as Henv.
    split.
    + intros Hdata. rewrite Henv, Hdata. reflexivity.
    + intros Hdata Herrors. rewrite Henv, Hdata, Herrors. reflexivity.
Qed.

Lemma parseAndCheckResponse_classification_witness :
  parseAndCheckResponse sample_operation (response_of 200 data_body)
    = Returned (VObj [("data", VObj [])])
  ∧ parseAndCheckResponse sample_operation (response_of 500 data_body)
    = Threw (NetworkError (response_of 500 data_body) (VObj [("data", VObj [])]))
  ∧ parseAndCheckResponse sample_operation (response_of 200 foo_body)
    = Threw (ServerDataError sample_operation (response_of 200 foo_body)
               (VObj [("foo", VNum "1")]))
  ∧ parseAndCheckResponse sample_operation (response_of 200 "not json")
    = Threw (ParseError (response_of 200 "not json")).
Proof.
  split; [| split; [| split]].
  - refine (proj1 (proj2 (proj2 (parseAndCheckResponse_classification
             sample_operation (response_of 200 data_body)) _ _) _ _) _);
      [vm_compute; reflexivity | simpl; lia | reflexivity | reflexivity].
  - refine (proj1 (proj2 (parseAndCheckResponse_classification
             sample_operation (response_of 500 data_body)) _ _) _);
      [vm_compute; reflexivity | simpl; lia].
  - refine (proj2 (proj2 (proj2 (parseAndCheckResponse_classification
             sample_operation (response_of 200 foo_body)) _ _) _ _) _ _);
      [vm_compute; reflexivity | simpl; lia | reflexivity | reflexivity | reflexivity].
  - refine (proj1 (parseAndCheckResponse_classification
             sample_operation (response_of 200 "not json")) _).
    vm_compute; reflexivity.
Defined.

(** C3 as stated fails: a status of 500 with a body that is not JSON is
    classified by the parse failure, not by the status. *)
Lemma classification_500_text_body :
  parseAndCheckResponse sample_operation (response_of 500 "Internal Server Error")
    = Threw (ParseError (response_of 500 "Internal Server Error"))
  ∧ (∀ response result,
       ParseError (response_of 500 "Internal Server Error")
         ≠ NetworkError response result).
Proof.
  split; [vm_compute; reflexivity |].
  intros response result Heq. apply (f_equal err_name) in Heq. discriminate Heq.
Qed.

(** C4 (as amended).  For a status of 300 or more the outcome is decided
    by the parse first: a body that parses gives a NetworkError whatever
    its members, and a body that does not parse gives the ParseError,
    which carries the status code. *)
Theorem status_check_follows_parse (request : Operation) (response : Response) :
  300 ≤ status response →
  match JSON_parse (bodyText response) with
  | Some result =>
      parseAndCheckResponse request response = Threw (NetworkError response result)
  | None =>
      parseAndCheckResponse request response = Threw (ParseError response)
      ∧ err_statusCode (ParseError response) = Some (status response)
  end.
Proof.
  intros Hstatus. destruct (JSON_parse (bodyText response)) as [result |] eqn:Hparse.
  - by apply parseAndCheckResponse_not_successful.
  - split; [by apply parseAndCheckResponse_unparsed | reflexivity].
Qed.

Lemma status_check_follows_parse_witness :
  parseAndCheckResponse sample_operation (response_of 503 foo_body)
    = Threw (NetworkError (response_of 503 foo_body) (VObj [("foo", VNum "1")])).
Proof.
  assert (H : 300 ≤ status (response_of 503 foo_body)) by (simpl; lia).
  exact (status_check_follows_parse sample_operation (response_of 503 foo_body) H).
Defined.

(** C4 as stated fails: with status 404 and a body that is not JSON the
    parse failure is raised and the status check is never reached. *)
Lemma status_404_html_body :
  300 ≤ status (response_of 404 "<html>Not Found</html>")
  ∧ parseAndCheckResponse sample_operation (response_of 404 "<html>Not Found</html>")
    = Threw (ParseError (response_of 404 "<html>Not Found</html>"))
  ∧ (∀ result,
       parseAndCheckResponse sample_operation (response_of 404 "<html>Not Found</html>")
         ≠ Threw (NetworkError (response_of 404 "<html>Not Found</html>") result)).
Proof.
  split; [simpl; lia |]. split; [vm_compute; reflexivity |].
  intros result Heq. vm_compute in Heq. discriminate Heq.
Qed.

(** ** Header merging *)

Lemma spread_headers_lookup (a b : Headers) (k : string) :
  spread_headers a b !! k = or_else (b !! k) (a !! k).
Proof.
  unfold spread_headers. rewrite lookup_union.
  destruct (b !! k), (a !! k); reflexivity.
Qed.

Lemma json_mergedHeaders_lookup (l : JsonLink) (ctx : Context) (k : string) :
  json_mergedHeaders l ctx !! k =
    or_else (headers_or_empty (cx_headers ctx) !! k)
      (or_else (headers_or_empty (linkHeaders l) !! k)
         (or_else (headers_of (default no_options (cx_fetchOptions ctx)) !! k)
                  (headers_of (linkFetchOptions l) !! k))).
Proof. unfold json_mergedHeaders. by rewrite !spread_headers_lookup. Qed.

Lemma fetcherOptions_of_headers (l : UploadLink) (ctx : Context)
    (literal : Headers) (body : Body) (sp : SignalPair) :
  headers_of (fetcherOptions_of l ctx literal body sp) =
    spread_headers
      (spread_headers literal (headers_or_empty (ro_headers (requestOptions l))))
      (headers_or_empty (cx_headers ctx)).
Proof.
  unfold fetcherOptions_of, spread_headers, headers_of, headers_or_empty.
  destruct (ro_fetchOptions (requestOptions l)),
           (truthy_string (ro_credentials (requestOptions l))),
           (truthy_string (cx_credentials ctx)),
           (ro_headers (requestOptions l)), (cx_headers ctx),
           (controller sp), (signal sp); simpl;
    rewrite ?(left_id_L ∅ (∪)); reflexivity.
Qed.

Lemma json_fetchOptions_headers (l : JsonLink) (ctx : Context) :
  headers_of (json_fetchOptions l ctx) = json_mergedHeaders l ctx.
Proof.
  unfold json_fetchOptions.
  by destruct (truthy_string (later (linkCredentials l) (cx_credentials ctx))).
Qed.

Lemma jsonUploadLink_request_with_files (l : JsonLink) (op : Operation) (ctx : Context) :
  (length (extractFiles (VObj (requestOperation l op))) =? 0)%nat = false →
  jsonUploadLink_request l op ctx =
    (operations ← JSON_stringify (VObj (requestOperation l op));
     map ← JSON_stringify (VObj (files_map (extractFiles (VObj (requestOperation l op)))));
     Returned
       {| fc_fetcher := linkFetch l; fc_uri := default (linkUri l) (cx_uri ctx);
          fc_options :=
            with_body
              (FormData ([("operations", PText operations); ("map", PText map)]
                           ++ file_parts (extractFiles (VObj (requestOperation l op)))))
              (json_fetchOptions l ctx) |}).
Proof.
  intros Hfiles. unfold jsonUploadLink_request, json_fetchOptions.
  rewrite Hfiles. simpl.
  destruct (JSON_stringify (VObj (requestOperation l op))); [| reflexivity].
  simpl. by destruct (JSON_stringify _).
Qed.

Lemma jsonUploadLink_request_without_files (l : JsonLink) (op : Operation) (ctx : Context) :
  extractFiles (VObj (requestOperation l op)) = [] →
  jsonUploadLink_request l op ctx =
    (text ← JSON_stringify (VObj (requestOperation l op));
     Returned
       {| fc_fetcher := linkFetch l; fc_uri := default (linkUri l) (cx_uri ctx);
          fc_options :=
            with_body (BodyText text)
              (with_headers
                 (<["content-type" := "application/json"]> (json_mergedHeaders l ctx))
                 (json_fetchOptions l ctx)) |}).
Proof.
  intros Hfiles. unfold jsonUploadLink_request.
  rewrite Hfiles. cbn [length Nat.eqb negb].
  fold (json_fetchOptions l ctx). rewrite json_fetchOptions_headers.
  by destruct (JSON_stringify (VObj (requestOperation l op))).
Qed.

Lemma jsonUploadLink_request_headers (l : JsonLink) (op : Operation) (ctx : Context) :
  match jsonUploadLink_request l op ctx with
  | Returned call =>
      headers_of (fc_options call) =
        if (length (extractFiles (VObj (requestOperation l op))) =? 0)%nat
        then <["content-type" := "application/json"]> (json_mergedHeaders l ctx)
        else json_mergedHeaders l ctx
  | Threw _ => True
  end.
Proof.
  destruct (extractFiles (VObj (requestOperation l op))) as [| ef files] eqn:Hfiles.
  - rewrite (jsonUploadLink_request_without_files l op ctx Hfiles).
    by destruct (JSON_stringify (VObj (requestOperation l op))).
  - rewrite jsonUploadLink_request_with_files by by rewrite Hfiles.
    rewrite Hfiles.
    destruct (JSON_stringify (VObj (requestOperation l op))); [| done]. simpl.
    destruct (JSON_stringify _); [| done]. simpl.
    apply json_fetchOptions_headers.
Qed.

(** C6 (as amended).  The effective headers are a shallow union by exact
    name.  In [jsonUploadLink] a name is looked up in the context
    headers, then the link headers, then the headers of the context and
    of the link fetch options, and the call goes out with that union,
    to which the JSON branch adds [content-type].  In the form-building
    links a name is looked up in the context headers, then the link
    headers, then the literal the link starts from.  The first bag that
    has the name gives the value.  Link headers [{a: 1}] under context
    headers [{a: 2, b: 3}] give [{a: 2, b: 3}]. *)
Theorem header_merge_by_exact_name :
  (∀ (l : JsonLink) (ctx : Context) (k : string),
     json_mergedHeaders l ctx !! k =
       or_else (headers_or_empty (cx_headers ctx) !! k)
         (or_else (headers_or_empty (linkHeaders l) !! k)
            (or_else (headers_of (default no_options (cx_fetchOptions ctx)) !! k)
                     (headers_of (linkFetchOptions l) !! k))))
  ∧ (∀ (l : JsonLink) (op : Operation) (ctx : Context),
       match jsonUploadLink_request l op ctx with
       | Returned call =>
           headers_of (fc_options call) =
             if (length (extractFiles (VObj (requestOperation l op))) =? 0)%nat
             then <["content-type" := "application/json"]> (json_mergedHeaders l ctx)
             else json_mergedHeaders l ctx
       | Threw _ => True
       end)
  ∧ (∀ (env : Env) (l : UploadLink) (ctx : Context) (literal : Headers)
       (entries : list (string * Part)) (k : string),
       headers_of (fc_options (sub_call
           (subscribe_UploadLink env l ctx literal entries))) !! k =
         or_else (headers_or_empty (cx_headers ctx) !! k)
           (or_else (headers_or_empty (ro_headers (requestOptions l)) !! k)
                    (literal !! k)))
  ∧ json_mergedHeaders (sample_JsonLink (Some {[ "a" := "1" ]}))
      (context_with_headers {[ "a" := "2"; "b" := "3" ]})
    = {[ "a" := "2"; "b" := "3" ]}.
Proof.
  split; [exact json_mergedHeaders_lookup |].
  split; [exact jsonUploadLink_request_headers |]. split.
  - intros env l ctx literal entries k.
    unfold subscribe_UploadLink. cbn [sub_call fc_options].
    rewrite fetcherOptions_of_headers, !spread_headers_lookup. reflexivity.
  - vm_compute. reflexivity.
Qed.

(** C6 as stated fails: names that differ only in case do not collide.
    A link header [X-Token] and a context header [x-token] are both
    kept, each with its own value, in either kind of link. *)
Lemma header_names_differing_in_case :
  lower "X-Token" = lower "x-token"
  ∧ json_mergedHeaders (sample_JsonLink (Some {[ "X-Token" := "1" ]}))
      (context_with_headers {[ "x-token" := "2" ]}) !! "X-Token" = Some "1"
  ∧ json_mergedHeaders (sample_JsonLink (Some {[ "X-Token" := "1" ]}))
      (context_with_headers {[ "x-token" := "2" ]}) !! "x-token" = Some "2"
  ∧ headers_of (fetcherOptions_of (sample_UploadLink (Some {[ "X-Token" := "1" ]}))
                  (context_with_headers {[ "x-token" := "2" ]})
                  multipart_literal_headers (FormData [])
                  {| controller := None; signal := None |}) !! "X-Token" = Some "1".
Proof.
  split; [reflexivity |]. split; [| split].
  - rewrite json_mergedHeaders_lookup. reflexivity.
  - rewrite json_mergedHeaders_lookup. reflexivity.
  - rewrite fetcherOptions_of_headers, !spread_headers_lookup. reflexivity.
Qed.

(** ** Cancellation *)

Lemma fetcherOptions_of_signal (l : UploadLink) (ctx : Context)
    (literal : Headers) (body : Body) (sp : SignalPair) :
  fo_signal (fetcherOptions_of l ctx literal body sp) =
    match controller sp, signal sp with
    | Some _, Some s => Some s
    | _, _ => fo_signal (caller_options l ctx)
    end.
Proof.
  unfold fetcherOptions_of, caller_options.
  destruct (ro_fetchOptions (requestOptions l)),
           (truthy_string (ro_credentials (requestOptions l))),
           (truthy_string (cx_credentials ctx)),
           (ro_headers (requestOptions l)), (cx_headers ctx),
           (controller sp), (signal sp); simpl;
    repeat match goal with |- context [later None ?x] => destruct x; simpl end;
    reflexivity.
Qed.

Arguments fetcherOptions_of : simpl never.

Lemma multipartUploadLink_request_subscribes (env : Env) (l : UploadLink)
    (operation : Operation) (ctx : Context) (sub : Subscription) :
  multipartUploadLink_request env l operation ctx = Returned sub →
  ∃ entries, sub = subscribe_UploadLink env l ctx multipart_literal_headers entries.
Proof.
  unfold multipartUploadLink_request. intros Hreq.
  destruct (JSON_stringify _) as [files_text | e]; simpl in Hreq; [| discriminate].
  destruct (append_operation _ _ _ _) as [entries | e]; simpl in Hreq; [| discriminate].
  exists entries. by inversion Hreq.
Qed.

Lemma createUploadLink_request_subscribes (env : Env) (l : UploadLink)
    (operation : Operation) (ctx : Context) (sub : Subscription) :
  Part000.createUploadLink_request env l operation ctx = Returned sub →
  ∃ entries, sub = subscribe_UploadLink env l ctx Part000.literal_headers entries.
Proof.
  unfold Part000.createUploadLink_request. intros Hreq.
  destruct (append_operation _ _ _ _) as [entries | e]; simpl in Hreq; [| discriminate].
  exists entries. by inversion Hreq.
Qed.

Lemma subscribe_cancel_with_controller (env : Env) (l : UploadLink) (ctx : Context)
    (literal : Headers) (entries : list (string * Part))
    (operation : Operation) (network : Settlement) :
  has_AbortController env = true →
  multipart_cancel_then_settle operation
      (subscribe_UploadLink env l ctx literal entries) network
    = ([AbortController_new], {| context_response := None; observer_calls := [] |}).
Proof.
  intros Hac.
  unfold multipart_cancel_then_settle, UploadLink_teardown, fetch_settlement,
    subscribe_UploadLink, createSignalIfSupported.
  rewrite Hac. reflexivity.
Qed.

Lemma subscribe_cancel_without_controller (env : Env) (l : UploadLink) (ctx : Context)
    (literal : Headers) (entries : list (string * Part)) :
  has_AbortController env = false →
  let sub := subscribe_UploadLink env l ctx literal entries in
  fo_signal (fc_options (sub_call sub)) = fo_signal (caller_options l ctx)
  ∧ UploadLink_teardown sub = []
  ∧ ∀ operation network,
      multipart_cancel_then_settle operation sub network
        = ([], UploadLink_settle operation network).
Proof.
  intros Hac sub. subst sub.
  assert (Hsp : createSignalIfSupported env = {| controller := None; signal := None |})
    by (unfold createSignalIfSupported; by rewrite Hac).
  unfold multipart_cancel_then_settle, UploadLink_teardown, fetch_settlement,
    subscribe_UploadLink.
  rewrite Hsp. cbn [sub_call sub_controller fc_options controller].
  rewrite fetcherOptions_of_signal. cbn [controller signal].
  split; [reflexivity |]. split; [reflexivity |].
  intros operation network.
  destruct (fo_signal (caller_options l ctx)) as [[c | uid] |]; reflexivity.
Qed.

(** C7 (as amended).  In [multipartUploadLink] and in the earlier
    [createUploadLink], where the environment has [AbortController]:
    unsubscribing while the fetch is pending aborts the controller whose
    signal the fetch was given, the fetch rejects with an AbortError,
    and the handlers make no call on the observer. *)
Theorem cancel_aborts_and_stays_silent
    (env : Env) (l : UploadLink) (operation : Operation) (ctx : Context)
    (sub : Subscription) (network : Settlement) :
  has_AbortController env = true →
  multipartUploadLink_request env l operation ctx = Returned sub
    ∨ Part000.createUploadLink_request env l operation ctx = Returned sub →
  fo_signal (fc_options (sub_call sub)) = Some (signal_of AbortController_new)
  ∧ multipart_cancel_then_settle operation sub network
    = ([AbortController_new], {| context_response := None; observer_calls := [] |}).
Proof.
  intros Hac Hreq.
  assert (∃ literal entries, sub = subscribe_UploadLink env l ctx literal entries)
    as (literal & entries & ->).
  { destruct Hreq as [Hreq | Hreq].
    - apply multipartUploadLink_request_subscribes in Hreq as [entries ->]. eauto.
    - apply createUploadLink_request_subscribes in Hreq as [entries ->]. eauto. }
  split; [| by apply subscribe_cancel_with_controller].
  unfold subscribe_UploadLink, createSignalIfSupported. rewrite Hac. reflexivity.
Qed.

(** C10 (as amended).  Without [AbortController] the signal factory
    returns [controller: false, signal: false]; the fetch call carries
    no signal of the link's, only the one the caller put in the fetch
    options, if any; the teardown aborts nothing; and after
    unsubscribing the handlers do exactly what they do for a request
    that was never cancelled. *)
Theorem no_AbortController_no_cancellation
    (env : Env) (l : UploadLink) (operation : Operation) (ctx : Context)
    (sub : Subscription) :
  has_AbortController env = false →
  multipartUploadLink_request env l operation ctx = Returned sub
    ∨ Part000.createUploadLink_request env l operation ctx = Returned sub →
  createSignalIfSupported env = {| controller := None; signal := None |}
  ∧ fo_signal (fc_options (sub_call sub)) = fo_signal (caller_options l ctx)
  ∧ UploadLink_teardown sub = []
  ∧ ∀ network,
      multipart_cancel_then_settle operation sub network
        = ([], UploadLink_settle operation network).
Proof.
  intros Hac Hreq.
  assert (∃ literal entries, sub = subscribe_UploadLink env l ctx literal entries)
    as (literal & entries & ->).
  { destruct Hreq as [Hreq | Hreq].
    - apply multipartUploadLink_request_subscribes in Hreq as [entries ->]. eauto.
    - apply createUploadLink_request_subscribes in Hreq as [entries ->]. eauto. }
  split; [unfold createSignalIfSupported; by rewrite Hac |].
  destruct (subscribe_cancel_without_controller env l ctx literal entries Hac)
    as (Hsig & Htear & Hrun).
  split; [exact Hsig |]. split; [exact Htear |].
  intros network. apply Hrun.
Qed.

Lemma cancel_aborts_and_stays_silent_witness :
  ∃ sub,
    multipartUploadLink_request browser_env (sample_UploadLink None)
      sample_operation no_context = Returned sub
    ∧ multipart_cancel_then_settle sample_operation sub
        (fulfilled (response_of 200 data_body))
      = ([AbortController_new], {| context_response := None; observer_calls := [] |}).
Proof.
  destruct (multipartUploadLink_request browser_env (sample_UploadLink None)
              sample_operation no_context) as [sub | e] eqn:Hreq.
  - exists sub. split; [reflexivity |].
    exact (proj2 (cancel_aborts_and_stays_silent browser_env (sample_UploadLink None)
                    sample_operation no_context sub
                    (fulfilled (response_of 200 data_body))
                    eq_refl (or_introl Hreq))).
  - vm_compute in Hreq. discriminate Hreq.
Defined.

(** C7 as stated fails.  Where the environment has no
    [AbortController], unsubscribing from a request of
    [multipartUploadLink] while the fetch is pending aborts nothing: the
    fetch settles as the network has it and the handlers call [next] and
    [complete].  [jsonUploadLink] creates no controller and returns no
    teardown in any environment, with the same outcome. *)
Lemma cancel_without_abort :
  (∃ sub,
     multipartUploadLink_request old_browser_env (sample_UploadLink None)
       sample_operation no_context = Returned sub
     ∧ multipart_cancel_then_settle sample_operation sub
         (fulfilled (response_of 200 data_body))
       = ([], {| context_response := Some (response_of 200 data_body);
                 observer_calls := [next (VObj [("data", VObj [])]); complete] |}))
  ∧ (∃ call,
       jsonUploadLink_request (sample_JsonLink None) sample_operation no_context
         = Returned call
       ∧ fo_signal (fc_options call) = None
       ∧ json_cancel_then_settle call (fulfilled (response_of 200 data_body))
         = ([], {| context_response := Some (response_of 200 data_body);
                   observer_calls := [next (VObj [("data", VObj [])]); complete] |})).
Proof.
  split.
  - destruct (multipartUploadLink_request old_browser_env (sample_UploadLink None)
                sample_operation no_context) as [sub | e] eqn:Hreq.
    + exists sub. split; [reflexivity |].
      vm_compute in Hreq. inversion Hreq; subst sub. vm_compute. reflexivity.
    + vm_compute in Hreq. discriminate Hreq.
  - destruct (jsonUploadLink_request (sample_JsonLink None) sample_operation no_context)
      as [call | e] eqn:Hreq.
    + exists call. split; [reflexivity |].
      vm_compute in Hreq. inversion Hreq; subst call. split; vm_compute; reflexivity.
    + vm_compute in Hreq. discriminate Hreq.
Qed.

Lemma no_AbortController_no_cancellation_witness :
  ∃ sub,
    multipartUploadLink_request old_browser_env (sample_UploadLink None)
      sample_operation no_context = Returned sub
    ∧ createSignalIfSupported old_browser_env = {| controller := None; signal := None |}
    ∧ fo_signal (fc_options (sub_call sub)) = None
    ∧ UploadLink_teardown sub = []
    ∧ multipart_cancel_then_settle sample_operation sub
        (fulfilled (response_of 200 data_body))
      = ([], {| context_response := Some (response_of 200 data_body);
                observer_calls := [next (VObj [("data", VObj [])]); complete] |}).
Proof.
  destruct (multipartUploadLink_request old_browser_env (sample_UploadLink None)
              sample_operation no_context) as [sub | e] eqn:Hreq.
  - exists sub. split; [reflexivity |].
    destruct (no_AbortController_no_cancellation old_browser_env
                (sample_UploadLink None) sample_operation no_context sub
                eq_refl (or_introl Hreq)) as (Hsp & Hsig & Htear & Hrun).
    split; [exact Hsp |]. split; [exact Hsig |]. split; [exact Htear |].
    rewrite Hrun. vm_compute. reflexivity.
  - vm_compute in Hreq. discriminate Hreq.
Defined.

(** C10 as stated fails: without [AbortController] the link creates no
    signal, yet the fetch call is not without one when the caller put a
    signal in the fetch options of the context: the spread of those
    options passes it through, and nothing overwrites it. *)
Lemma no_AbortController_caller_signal_attached :
  has_AbortController old_browser_env = false
  ∧ createSignalIfSupported old_browser_env = {| controller := None; signal := None |}
  ∧ (∃ sub,
       multipartUploadLink_request old_browser_env (sample_UploadLink None)
         sample_operation busy_context = Returned sub
       ∧ fo_signal (fc_options (sub_call sub)) = Some (caller_signal 2)
       ∧ UploadLink_teardown sub = [])
  ∧ ∃ sub,
      Part000.createUploadLink_request old_browser_env (sample_UploadLink None)
        sample_operation busy_context = Returned sub
      ∧ fo_signal (fc_options (sub_call sub)) = Some (caller_signal 2)
      ∧ UploadLink_teardown sub = [].
Proof.
  split; [reflexivity |]. split; [reflexivity |]. split.
  - destruct (multipartUploadLink_request old_browser_env (sample_UploadLink None)
                sample_operation busy_context) as [sub | e] eqn:Hreq.
    + exists sub. split; [reflexivity |].
      vm_compute in Hreq. inversion Hreq; subst sub. by split.
    + vm_compute in Hreq. discriminate Hreq.
  - destruct (Part000.createUploadLink_request old_browser_env (sample_UploadLink None)
                sample_operation busy_context) as [sub | e] eqn:Hreq.
    + exists sub. split; [reflexivity |].
      vm_compute in Hreq. inversion Hreq; subst sub. by split.
    + vm_compute in Hreq. discriminate Hreq.
Qed.

(** ** The extractor and the files map *)

Lemma stringify_text_VObj (m : list (string * value)) :
  stringify_text (VObj m) =
    match stringify_members m with
    | Some parts => Some ("{" +:+ String.concat "," parts +:+ "}")
    | None => None
    end.
Proof. reflexivity. Qed.

Lemma stringify_members_app (a b : list (string * value)) :
  stringify_members (a ++ b) =
    match stringify_members a, stringify_members b with
    | Some x, Some y => Some (x ++ y)
    | _, _ => None
    end.
Proof.
  induction a as [| [k x] a IH]; simpl.
  - by destruct (stringify_members b).
  - rewrite IH. destruct (stringify_text x), (stringify_members a),
      (stringify_members b); reflexivity.
Qed.

Lemma stringify_members_middle_none
    (a : list (string * value)) (k : string) (v : value) (b : list (string * value)) :
  stringify_text v = None → stringify_members (a ++ [(k, v)] ++ b) = None.
Proof.
  intros Hv. rewrite stringify_members_app.
  change (stringify_members ([(k, v)] ++ b)) with
    (match stringify_text v, stringify_members b with
     | Some sx, Some sr => Some ((quote k +:+ ":" +:+ sx) :: sr)
     | _, _ => None
     end).
  rewrite Hv. by destruct (stringify_members a).
Qed.

Lemma has_file_members_app (a b : list (string * value)) :
  has_file_members (a ++ b) = has_file_members a || has_file_members b.
Proof.
  induction a as [| [k x] a IH]; simpl; [reflexivity |].
  by rewrite IH, orb_assoc.
Qed.

Lemma extract_props_app (prefix : Path) (a b : list (string * value)) :
  extract_props prefix (a ++ b) = extract_props prefix a ++ extract_props prefix b.
Proof.
  induction a as [| [k x] a IH]; simpl; [reflexivity |].
  by rewrite IH, app_assoc.
Qed.

(** The extractor finds a file exactly where the value holds one. *)
Lemma has_file_extracted (v : value) :
  ∀ prefix, has_file v = negb (Nat.eqb (length (extractFiles_from prefix v)) 0).
Proof.
  induction v as [| b | n | s | z | f | l IH | m IH] using value_ind;
    intros prefix; try reflexivity.
  - change (has_file (VArr l)) with (has_file_items l).
    change (extractFiles_from prefix (VArr l)) with (extract_items prefix 0 l).
    cut (∀ i, has_file_items l
              = negb (Nat.eqb (length (extract_items prefix i l)) 0)); [by auto |].
    induction IH as [| x r Hx _ IHr]; intros i; simpl; [reflexivity |].
    rewrite length_app, (Hx (prefix ++ [Index i])), (IHr (S i)).
    destruct (length (extractFiles_from _ x)), (length (extract_items _ _ r));
      reflexivity.
  - change (has_file (VObj m)) with (has_file_members m).
    change (extractFiles_from prefix (VObj m)) with (extract_props prefix m).
    induction IH as [| [k x] r Hx _ IHr]; simpl; [reflexivity |].
    simpl in Hx. rewrite length_app, (Hx (prefix ++ [Key k])), IHr.
    destruct (length (extractFiles_from _ x)), (length (extract_props _ r));
      reflexivity.
Qed.

Lemma obj_get_in_keys (k : string) (m : JsObject) (v : value) :
  obj_get k m = Some v → In k (map fst m).
Proof.
  induction m as [| [k' x] m IH]; simpl; [discriminate |].
  destruct (String.eqb_spec k k') as [-> | Hne]; [by left | right; auto].
Qed.

Lemma obj_get_skip (k k' : string) (x : value) (m : JsObject) :
  k ≠ k' → obj_get k ((k', x) :: m) = obj_get k m.
Proof. intros Hne. simpl. by destruct (String.eqb_spec k k'). Qed.

Lemma obj_get_head (k : string) (x : value) (m : JsObject) :
  obj_get k ((k, x) :: m) = Some x.
Proof. simpl. by rewrite String.eqb_refl. Qed.

(** Every extracted file sits in the tree at the path reported for it,
    below the prefix the walk started with. *)
Lemma extractFiles_from_located (v : value) :
  ∀ prefix ef, unique_keys v → In ef (extractFiles_from prefix v) →
    ∃ p, path ef = prefix ++ p ∧ get_path p v = Some (VFile (file ef)).
Proof.
  induction v as [| b | n | s | z | f | l IH | m IH] using value_ind;
    intros prefix ef Huniq Hin; try (by destruct Hin).
  - destruct Hin as [<- | []]. exists []. by rewrite app_nil_r.
  - change (extractFiles_from prefix (VArr l)) with (extract_items prefix 0 l) in Hin.
    change (unique_keys (VArr l)) with (unique_keys_items l) in Huniq.
    assert (Hgen : ∀ i, In ef (extract_items prefix i l) →
              ∃ j x p, nth_error l j = Some x
                       ∧ path ef = prefix ++ Index (i + j) :: p
                       ∧ get_path p x = Some (VFile (file ef))).
    { clear Hin. induction IH as [| x r Hx _ IHr]; intros i Hin; [by destruct Hin |].
      destruct Huniq as [Hux Hur]. simpl in Hin.
      apply in_app_or in Hin as [Hin | Hin].
      - destruct (Hx _ _ Hux Hin) as (p & Hp & Hget).
        exists 0%nat, x, p. rewrite Nat.add_0_r, Hp, <- app_assoc. auto.
      - destruct (IHr Hur (S i) Hin) as (j & y & p & Hnth & Hp & Hget).
        exists (S j), y, p. rewrite Nat.add_succ_r. auto. }
    destruct (Hgen 0%nat Hin) as (j & x & p & Hnth & Hp & Hget).
    exists (Index j :: p). split; [exact Hp |]. simpl. by rewrite Hnth.
  - change (extractFiles_from prefix (VObj m)) with (extract_props prefix m) in Hin.
    induction IH as [| [k x] r Hx _ IHr]; [by destruct Hin |].
    destruct Huniq as [Hnodup [Hux Hur]]. simpl in Hx, Hin.
    apply NoDup_cons in Hnodup as [Hk Hnodup].
    apply in_app_or in Hin as [Hin | Hin].
    + destruct (Hx _ _ Hux Hin) as (p & Hp & Hget).
      exists (Key k :: p). rewrite Hp, <- app_assoc. split; [reflexivity |].
      cbn [get_path]. by rewrite obj_get_head.
    + destruct (IHr (conj Hnodup Hur) Hin) as (p & Hp & Hget).
      exists p. split; [exact Hp |].
      destruct p as [| [k' | j] p']; simpl in Hget; try discriminate.
      cbn [get_path]. destruct (obj_get k' r) as [y |] eqn:Hy; [| discriminate].
      rewrite obj_get_skip, Hy; [exact Hget |].
      intros ->. apply Hk, list_elem_of_In. eapply obj_get_in_keys, Hy.
Qed.

Lemma obj_set_fresh (k : string) (v : value) (o : JsObject) :
  ¬ In k (map fst o) → obj_set k v o = o ++ [(k, v)].
Proof.
  induction o as [| [k' x] o IH]; simpl; intros Hfresh; [reflexivity |].
  destruct (String.eqb_spec k k') as [-> | Hne]; [tauto |].
  rewrite IH; [reflexivity | tauto].
Qed.

Lemma files_map_from (files : list ExtractedFile) :
  ∀ (n : nat) (acc : JsObject),
    (∀ k, In k (map fst acc) → ∃ j : nat, (j < n)%nat ∧ k = pretty j) →
    fold_left
      (fun map (entry : nat * ExtractedFile) =>
         obj_set (pretty (fst entry))
                 (VArr [VStr (path_string (path (snd entry)))]) map)
      (imap (fun index f => ((n + index)%nat, f)) files) acc
    = acc ++ imap (fun index f => files_entry (n + index) f) files.
Proof.
  induction files as [| f files IH]; intros n acc Hacc; simpl.
  - by rewrite app_nil_r.
  - rewrite obj_set_fresh.
    + rewrite (imap_ext _ (fun index f => ((S n + index)%nat, f)))
        by (intros; simpl; f_equal; lia).
      rewrite (imap_ext (_ ∘ S) (fun index f => files_entry (S n + index) f))
        by (intros; simpl; f_equal; lia).
      rewrite IH.
      * rewrite <- app_assoc. reflexivity.
      * intros k Hk. rewrite map_app in Hk. apply in_app_or in Hk as [Hk | Hk].
        -- destruct (Hacc k Hk) as (j & Hj & ->). exists j. split; [lia | done].
        -- destruct Hk as [<- | []]. exists n. simpl.
           split; [lia | f_equal; lia].
    + intros Hin. destruct (Hacc _ Hin) as (j & Hj & Heq). simpl in Heq.
      apply (inj pretty) in Heq. lia.
Qed.

(** The reduce builds one entry per file, keyed by its index in order,
    each holding the one path of that file. *)
Lemma files_map_entries (files : list ExtractedFile) :
  files_map files = imap files_entry files.
Proof.
  assert (Hfresh : ∀ k, In k (map fst ([] : JsObject)) →
            ∃ j : nat, (j < 0)%nat ∧ k = pretty j) by (intros k []).
  exact (files_map_from files 0 [] Hfresh).
Qed.

Lemma stringify_members_files (files : list ExtractedFile) :
  ∀ n, is_Some (stringify_members (imap (fun i f => files_entry (n + i) f) files)).
Proof.
  induction files as [| f files IH]; intros n; simpl; [by eexists |].
  rewrite (imap_ext (_ ∘ S) (fun i f => files_entry (S n + i) f))
    by (intros; simpl; f_equal; lia).
  destruct (IH (S n)) as [parts ->]. by eexists.
Qed.

(** Serialising the files map never throws. *)
Lemma files_map_serializable (files : list ExtractedFile) :
  ∃ text, JSON_stringify (VObj (files_map files)) = Returned text.
Proof.
  unfold JSON_stringify. rewrite stringify_text_VObj, files_map_entries.
  destruct (stringify_members_files files 0) as [parts Hparts].
  change (stringify_members (imap files_entry files) = Some parts) in Hparts.
  rewrite Hparts. by eexists.
Qed.

Lemma files_map_lookup (files : list ExtractedFile) (i : nat) (ef : ExtractedFile) :
  files !! i = Some ef →
  obj_get (pretty i) (files_map files) = Some (VArr [VStr (path_string (path ef))]).
Proof.
  rewrite files_map_entries.
  change (imap files_entry files) with (imap (fun j f => files_entry (0 + j) f) files).
  assert (Hgen : ∀ (n : nat), files !! i = Some ef →
            obj_get (pretty (n + i)%nat)
              (imap (fun j f => files_entry (n + j) f) files)
            = Some (VArr [VStr (path_string (path ef))])).
  { revert i. induction files as [| f files IH]; intros i n Hi; [done |].
    simpl. destruct i as [| i]; simpl in Hi.
    - inversion Hi; subst f. by rewrite String.eqb_refl.
    - destruct (String.eqb_spec (pretty (n + S i)%nat) (pretty (n + 0)%nat)) as [Heq | _].
      + apply (inj pretty) in Heq. lia.
      + rewrite (imap_ext (_ ∘ S) (fun j f => files_entry (S n + j) f))
          by (intros; simpl; f_equal; lia).
        replace (n + S i)%nat with (S n + i)%nat by lia. by apply IH. }
  intros Hi. exact (Hgen 0%nat Hi).
Qed.

(** ** The request record of jsonUploadLink *)

Lemma has_file_requestOperation (l : JsonLink) (op : Operation) :
  has_file (VObj (requestOperation l op)) =
    has_file (VObj (variables op))
    || match included_extensions l op with
       | Some ext => has_file (VObj ext)
       | None => false
       end.
Proof.
  change (has_file (VObj (requestOperation l op)))
    with (has_file_members (requestOperation l op)).
  unfold requestOperation, included_extensions.
  rewrite !has_file_members_app.
  destruct (truthy_string (operationName op)), (variables op) as [| kv vars],
    (extensions op) as [ext |], (jl_includeExtensions l); simpl;
    rewrite ?orb_false_r; reflexivity.
Qed.

Lemma requestOperation_variables (l : JsonLink) (op : Operation) :
  variables op ≠ [] →
  obj_get "variables" (requestOperation l op) = Some (VObj (variables op)).
Proof.
  intros Hne. unfold requestOperation.
  destruct (variables op) as [| kv vars]; [done |].
  destruct (truthy_string (operationName op)); reflexivity.
Qed.

Lemma requestOperation_unique_keys (l : JsonLink) (op : Operation) :
  unique_keys (VObj (variables op)) →
  (∀ ext, extensions op = Some ext → unique_keys (VObj ext)) →
  unique_keys (VObj (requestOperation l op)).
Proof.
  intros Hvars Hext. unfold requestOperation.
  destruct (extensions op) as [ext |].
  - specialize (Hext ext eq_refl).
    destruct (truthy_string (operationName op)), (variables op) as [| kv vars],
      (jl_includeExtensions l); simpl in *;
      (split; [apply (bool_decide_unpack _); vm_compute; reflexivity | tauto]).
  - destruct (truthy_string (operationName op)), (variables op) as [| kv vars];
      simpl in *;
      (split; [apply (bool_decide_unpack _); vm_compute; reflexivity | tauto]).
Qed.

Lemma has_file_nonempty (m : JsObject) : has_file (VObj m) = true → m ≠ [].
Proof. by destruct m. Qed.

Lemma extractFiles_nonempty (v : value) :
  has_file v = true → (length (extractFiles v) =? 0)%nat = false.
Proof.
  intros Hfile. unfold extractFiles.
  rewrite (has_file_extracted v []) in Hfile.
  by destruct (length (extractFiles_from [] v)).
Qed.

Lemma extractFiles_empty (v : value) :
  has_file v = false → extractFiles v = [].
Proof.
  intros Hfile. unfold extractFiles.
  rewrite (has_file_extracted v []) in Hfile.
  by destruct (extractFiles_from [] v).
Qed.

(** Some extracted file lies under [variables] whenever the variables
    hold a file. *)
Lemma extractFiles_under_variables (l : JsonLink) (op : Operation) :
  has_file (VObj (variables op)) = true →
  unique_keys (VObj (variables op)) →
  ∃ ef p, In ef (extractFiles (VObj (requestOperation l op)))
          ∧ path ef = Key "variables" :: p.
Proof.
  intros Hfile Huniq.
  pose proof (has_file_nonempty _ Hfile) as Hne.
  pose proof (has_file_extracted (VObj (variables op)) [Key "variables"]) as Hlen.
  rewrite Hfile in Hlen.
  destruct (extractFiles_from [Key "variables"] (VObj (variables op)))
    as [| ef rest] eqn:Hex; [discriminate |].
  assert (Hin : In ef (extractFiles (VObj (requestOperation l op)))).
  { unfold extractFiles.
    change (extractFiles_from [] (VObj (requestOperation l op)))
      with (extract_props [] (requestOperation l op)).
    unfold requestOperation. rewrite !extract_props_app.
    apply in_or_app. right. apply in_or_app. right. apply in_or_app. left.
    destruct (variables op) as [| kv vars]; [done |].
    cbn [length obj_keys map Nat.eqb negb extract_props app].
    rewrite app_nil_r. change ([] ++ [Key "variables"]) with [Key "variables"].
    rewrite Hex. by left. }
  assert (Hin' : In ef (extractFiles_from [Key "variables"] (VObj (variables op))))
    by (rewrite Hex; by left).
  destruct (extractFiles_from_located _ _ _ Huniq Hin') as (p & Hp & _).
  exists ef, p. by split.
Qed.

(** ** Encoding selection *)

(** C2 (as amended).  In [jsonUploadLink], when neither the variables
    nor the extensions that are included hold a file-like value, no form
    is built: if the request record serialises, fetch is called with its
    JSON text as the body and [content-type: application/json] among the
    headers; if it does not, the serialiser's error is thrown.
    ([multipartUploadLink] and the earlier [createUploadLink] build a
    form for every operation.) *)
Theorem jsonUploadLink_without_files_sends_json
    (l : JsonLink) (op : Operation) (ctx : Context) :
  has_file (VObj (variables op)) = false →
  (∀ ext, included_extensions l op = Some ext → has_file (VObj ext) = false) →
  match stringify_text (VObj (requestOperation l op)) with
  | Some text =>
      ∃ options,
        jsonUploadLink_request l op ctx
          = Returned {| fc_fetcher := linkFetch l;
                        fc_uri := default (linkUri l) (cx_uri ctx);
                        fc_options := options |}
        ∧ fo_body options = Some (BodyText text)
        ∧ headers_of options !! "content-type" = Some "application/json"
  | None =>
      jsonUploadLink_request l op ctx
        = Threw (TypeError "Do not know how to serialize a BigInt")
  end.
Proof.
  intros Hvars Hext.
  assert (Hnone : extractFiles (VObj (requestOperation l op)) = []).
  { apply extractFiles_empty. rewrite has_file_requestOperation, Hvars.
    destruct (included_extensions l op) as [ext |]; [by apply Hext | reflexivity]. }
  rewrite (jsonUploadLink_request_without_files l op ctx Hnone).
  unfold JSON_stringify.
  destruct (stringify_text (VObj (requestOperation l op))) as [text |]; [| reflexivity].
  eexists. split; [reflexivity |]. split; [reflexivity |].
  unfold headers_of. simpl. apply lookup_insert_eq.
Qed.

Lemma jsonUploadLink_without_files_sends_json_witness :
  ∃ options,
    jsonUploadLink_request (sample_JsonLink None) sample_operation no_context
      = Returned {| fc_fetcher := sample_fetcher; fc_uri := "/graphql";
                    fc_options := options |}
    ∧ fo_body options
      = Some (BodyText ("{" +:+ quote "query" +:+ ":" +:+ quote "query Q { a }"
                          +:+ "," +:+ quote "operationName" +:+ ":" +:+ quote "Q"
                          +:+ "}"))
    ∧ headers_of options !! "content-type" = Some "application/json".
Proof.
  assert (Hvars : has_file (VObj (variables sample_operation)) = false) by reflexivity.
  assert (Hext : ∀ ext, included_extensions (sample_JsonLink None) sample_operation
                          = Some ext → has_file (VObj ext) = false)
    by (intros ext Hsome; discriminate Hsome).
  exact (jsonUploadLink_without_files_sends_json (sample_JsonLink None)
           sample_operation no_context Hvars Hext).
Defined.

(** C2 as stated fails: [multipartUploadLink] builds a form for an
    operation without any file, and sends it under
    [content-type: multipart/form-data]. *)
Lemma multipartUploadLink_without_files_sends_form :
  has_file (VObj (variables sample_operation)) = false
  ∧ ∃ sub,
      multipartUploadLink_request browser_env (sample_UploadLink None)
        sample_operation no_context = Returned sub
      ∧ fo_body (fc_options (sub_call sub))
        = Some (FormData [("files", PText "{}");
                          ("operationName", PText "Q");
                          ("variables", PText "{}");
                          ("query", PText "query Q { a }")])
      ∧ headers_of (fc_options (sub_call sub)) !! "content-type"
        = Some "multipart/form-data".
Proof.
  split; [reflexivity |].
  destruct (multipartUploadLink_request browser_env (sample_UploadLink None)
              sample_operation no_context) as [sub | e] eqn:Hreq.
  - exists sub. split; [reflexivity |].
    vm_compute in Hreq. inversion Hreq; subst sub. split; vm_compute; reflexivity.
  - vm_compute in Hreq. discriminate Hreq.
Qed.

(** C1 (as amended).  In [jsonUploadLink], for an operation whose
    variables hold a file-like value at any depth: files are extracted,
    one of them under [variables]; the files map has one entry per
    extracted file, the i-th under the key i written in decimal, holding
    the one path of that file; that path leads to the file in the
    request record, and for a path under [variables] its remainder leads
    to the file in the variables; and if the request record serialises,
    fetch is called with a form of the fields [operations] and [map]
    followed by one part per file. *)
Theorem jsonUploadLink_files_give_map
    (l : JsonLink) (op : Operation) (ctx : Context) :
  has_file (VObj (variables op)) = true →
  unique_keys (VObj (variables op)) →
  (∀ ext, extensions op = Some ext → unique_keys (VObj ext)) →
  let record := VObj (requestOperation l op) in
  let files := extractFiles record in
  (∃ ef p, In ef files ∧ path ef = Key "variables" :: p)
  ∧ files_map files = imap files_entry files
  ∧ (∀ i ef, files !! i = Some ef →
       obj_get (pretty i) (files_map files)
         = Some (VArr [VStr (path_string (path ef))])
       ∧ get_path (path ef) record = Some (VFile (file ef)))
  ∧ (∀ ef p, In ef files → path ef = Key "variables" :: p →
       get_path p (VObj (variables op)) = Some (VFile (file ef)))
  ∧ (∀ operations, stringify_text record = Some operations →
       ∃ map_text options,
         JSON_stringify (VObj (files_map files)) = Returned map_text
         ∧ jsonUploadLink_request l op ctx
           = Returned {| fc_fetcher := linkFetch l;
                         fc_uri := default (linkUri l) (cx_uri ctx);
                         fc_options := options |}
         ∧ fo_body options
           = Some (FormData ([("operations", PText operations);
                              ("map", PText map_text)] ++ file_parts files))).
Proof.
  intros Hfile Hvars Hext record files.
  assert (Huniq : unique_keys record) by by apply requestOperation_unique_keys.
  assert (Hlocated : ∀ ef, In ef files →
            get_path (path ef) record = Some (VFile (file ef))).
  { intros ef Hin.
    destruct (extractFiles_from_located record [] ef Huniq Hin) as (p & Hp & Hget).
    simpl in Hp. by rewrite Hp. }
  split; [by apply extractFiles_under_variables |].
  split; [apply files_map_entries |].
  split.
  { intros i ef Hi. split; [by apply files_map_lookup |].
    apply Hlocated, list_elem_of_In. eapply list_elem_of_lookup_2, Hi. }
  split.
  { intros ef p Hin Hp. specialize (Hlocated ef Hin). rewrite Hp in Hlocated.
    subst record. cbn [get_path] in Hlocated.
    rewrite requestOperation_variables in Hlocated by by apply has_file_nonempty.
    exact Hlocated. }
  intros operations Hser.
  destruct (files_map_serializable files) as [map_text Hmap].
  exists map_text. eexists. split; [exact Hmap |].
  rewrite jsonUploadLink_request_with_files.
  - fold record files. rewrite Hmap. unfold JSON_stringify. rewrite Hser.
    split; reflexivity.
  - apply extractFiles_nonempty. rewrite has_file_requestOperation, Hfile. reflexivity.
Qed.

Lemma upload_operation_unique_keys : unique_keys (VObj (variables upload_operation)).
Proof.
  simpl. repeat split; apply (bool_decide_unpack _); vm_compute; reflexivity.
Qed.

Lemma jsonUploadLink_files_give_map_witness :
  extractFiles (VObj (requestOperation (sample_JsonLink None) upload_operation))
    = [{| path := [Key "variables"; Key "input"; Key "docs"; Index 1];
          file := report |}]
  ∧ obj_get "0"
      (files_map (extractFiles
                    (VObj (requestOperation (sample_JsonLink None) upload_operation))))
    = Some (VArr [VStr "variables.input.docs.1"])
  ∧ get_path [Key "input"; Key "docs"; Index 1] (VObj (variables upload_operation))
    = Some (VFile report)
  ∧ ∃ call,
      jsonUploadLink_request (sample_JsonLink None) upload_operation no_context
        = Returned call
      ∧ form_fields (fo_body (fc_options call)) = ["operations"; "map"; "0"].
Proof.
  assert (Hfile : has_file (VObj (variables upload_operation)) = true) by reflexivity.
  assert (Hext : ∀ ext, extensions upload_operation = Some ext → unique_keys (VObj ext))
    by (intros ext Hsome; discriminate Hsome).
  destruct (jsonUploadLink_files_give_map (sample_JsonLink None) upload_operation
              no_context Hfile upload_operation_unique_keys Hext)
    as (_ & _ & Hentry & Hvars & Hbody).
  split; [vm_compute; reflexivity |].
  split; [| split].
  - exact (proj1 (Hentry 0%nat
                    {| path := [Key "variables"; Key "input"; Key "docs"; Index 1];
                       file := report |} eq_refl)).
  - refine (Hvars {| path := [Key "variables"; Key "input"; Key "docs"; Index 1];
                     file := report |} _ _ eq_refl).
    vm_compute. by left.
  - destruct (stringify_text
                (VObj (requestOperation (sample_JsonLink None) upload_operation)))
      as [operations |] eqn:Hser; [| vm_compute in Hser; discriminate Hser].
    destruct (Hbody operations eq_refl) as (map_text & options & _ & Hreq & Hform).
    eexists. split; [exact Hreq |].
    cbn [fc_options]. rewrite Hform. vm_compute. reflexivity.
Defined.

(** C1 as stated fails: for variables holding a file,
    [multipartUploadLink] sends the index-to-path object under the field
    name [files] and the earlier [createUploadLink] sends no such object
    and names every file part [file]; neither form has a [map] field. *)
Lemma form_links_have_no_map_field :
  has_file (VObj (variables upload_operation)) = true
  ∧ (∃ sub,
       multipartUploadLink_request browser_env (sample_UploadLink None)
         upload_operation no_context = Returned sub
       ∧ form_fields (fo_body (fc_options (sub_call sub)))
         = ["files"; "0"; "operationName"; "variables"; "query"])
  ∧ (∃ sub,
       Part000.createUploadLink_request browser_env (sample_UploadLink None)
         upload_operation no_context = Returned sub
       ∧ form_fields (fo_body (fc_options (sub_call sub)))
         = ["file"; "operationName"; "variables"; "query"]).
Proof.
  split; [reflexivity |]. split.
  - destruct (multipartUploadLink_request browser_env (sample_UploadLink None)
                upload_operation no_context) as [sub | e] eqn:Hreq.
    + exists sub. split; [reflexivity |].
      vm_compute in Hreq. inversion Hreq; subst sub. vm_compute. reflexivity.
    + vm_compute in Hreq. discriminate Hreq.
  - destruct (Part000.createUploadLink_request browser_env (sample_UploadLink None)
                upload_operation no_context) as [sub | e] eqn:Hreq.
    + exists sub. split; [reflexivity |].
      vm_compute in Hreq. inversion Hreq; subst sub. vm_compute. reflexivity.
    + vm_compute in Hreq. discriminate Hreq.
Qed.

(** ** The forms of the form-building links *)


Lemma append_operation_unconvertible (l : UploadLink) (op : Operation)
    (http : HttpOptions) (entries : list (string * Part)) (text : string)
    (e : JsError) :
  stringify_text (VObj (variables op)) = Some text →
  extensions_entries l op http = Threw e →
  append_operation l op http entries = Threw e.
Proof.
  intros Hser Hext. unfold append_operation, JSON_stringify.
  rewrite Hser. unfold extensions_entries in Hext. simpl.
  destruct (ul_includeExtensions l || http_includeExtensions http);
    [| discriminate Hext].
  destruct (String_of_object (extensions op)) as [t | e']; [discriminate Hext |].
  simpl in Hext. inversion Hext; subst e'. reflexivity.
Qed.

(** The append of the extensions in closed form. *)
Lemma extensions_entries_cases (l : UploadLink) (op : Operation) (http : HttpOptions) :
  (extensions_appendable l op http = true
   ∧ ∃ ext,
       extensions_entries l op http = Returned ext
       ∧ ext = (if ul_includeExtensions l || http_includeExtensions http
                then [("extensions",
                       PText (match extensions op with
                              | Some _ => "[object Object]"
                              | None => "undefined"
                              end))]
                else []))
  ∨ (extensions_appendable l op http = false
     ∧ ul_includeExtensions l || http_includeExtensions http = true
     ∧ (∃ members, extensions op = Some members ∧ obj_has "toString" members = true)
     ∧ ∃ message, extensions_entries l op http = Threw (TypeError message)).
Proof.
  unfold extensions_appendable, extensions_entries, String_of_object.
  destruct (ul_includeExtensions l || http_includeExtensions http); simpl.
  - destruct (extensions op) as [members |]; simpl.
    + destruct (obj_has "toString" members) eqn:Hown; simpl.
      * right. repeat split; [by exists members | by eexists].
      * left. split; [reflexivity |]. by eexists.
    + left. split; [reflexivity |]. by eexists.
  - left. split; [reflexivity |]. by eexists.
Qed.



(** ** The multipart content type *)

(** C5 at the failing input: for the same upload, with no header given
    by the caller, [multipartUploadLink] sends an explicit
    [content-type: multipart/form-data], which names no boundary; the
    earlier [createUploadLink] and the form branch of [jsonUploadLink]
    send no [content-type] header. *)
Lemma multipartUploadLink_sets_content_type :
  (∃ sub,
     multipartUploadLink_request browser_env (sample_UploadLink None)
       upload_operation no_context = Returned sub
     ∧ form_fields (fo_body (fc_options (sub_call sub)))
       = ["files"; "0"; "operationName"; "variables"; "query"]
     ∧ headers_of (fc_options (sub_call sub))
       = {[ "accept" := "*/*"; "content-type" := "multipart/form-data" ]})
  ∧ (∃ sub,
       Part000.createUploadLink_request browser_env (sample_UploadLink None)
         upload_operation no_context = Returned sub
       ∧ headers_of (fc_options (sub_call sub)) = {[ "accept" := "*/*" ]})
  ∧ (∃ call,
       jsonUploadLink_request (sample_JsonLink None) upload_operation no_context
         = Returned call
       ∧ form_fields (fo_body (fc_options call)) = ["operations"; "map"; "0"]
       ∧ headers_of (fc_options call) = ∅).
Proof.
  split; [| split].
  - destruct (multipartUploadLink_request browser_env (sample_UploadLink None)
                upload_operation no_context) as [sub | e] eqn:Hreq.
    + exists sub. split; [reflexivity |].
      vm_compute in Hreq. inversion Hreq; subst sub. split; vm_compute; reflexivity.
    + vm_compute in Hreq. discriminate Hreq.
  - destruct (Part000.createUploadLink_request browser_env (sample_UploadLink None)
                upload_operation no_context) as [sub | e] eqn:Hreq.
    + exists sub. split; [reflexivity |].
      vm_compute in Hreq. inversion Hreq; subst sub. vm_compute. reflexivity.
    + vm_compute in Hreq. discriminate Hreq.
  - destruct (jsonUploadLink_request (sample_JsonLink None) upload_operation no_context)
      as [call | e] eqn:Hreq.
    + exists call. split; [reflexivity |].
      vm_compute in Hreq. inversion Hreq; subst call. split; vm_compute; reflexivity.
    + vm_compute in Hreq. discriminate Hreq.
Qed.

(** Whatever the caller's headers, a request of [multipartUploadLink]
    goes out with a [content-type] header: the caller's, or else the
    literal [multipart/form-data]. *)
Theorem multipartUploadLink_content_type_always_set
    (env : Env) (l : UploadLink) (ctx : Context) (entries : list (string * Part)) :
  headers_of (fc_options (sub_call
      (subscribe_UploadLink env l ctx multipart_literal_headers entries)))
    !! "content-type"
  = or_else (headers_or_empty (cx_headers ctx) !! "content-type")
      (or_else (headers_or_empty (ro_headers (requestOptions l)) !! "content-type")
               (Some "multipart/form-data")).
Proof.
  unfold subscribe_UploadLink. cbn [sub_call fc_options].
  rewrite fetcherOptions_of_headers, !spread_headers_lookup. reflexivity.
Qed.

(** ** Construction without a fetch *)

(** C8 at the failing input: with no fetch injected and none global,
    [jsonUploadLink], and [createUploadLink] without [multipart], fail at
    construction with the runtime's bare ReferenceError;
    [multipartUploadLink] fails there with the guidance text. *)
Lemma jsonUploadLink_without_fetch :
  jsonUploadLink node_env no_link_options = Threw (ReferenceError "fetch")
  ∧ createUploadLink node_env no_link_options = Threw (ReferenceError "fetch")
  ∧ err_message (ReferenceError "fetch") = "fetch is not defined"
  ∧ multipartUploadLink node_env no_link_options
    = Threw (new_Error "Error" (fetch_guidance "node-fetch")).
Proof. repeat split; reflexivity. Qed.



(** ** Variables that do not serialise *)

(** C9 at the failing input: for variables holding a BigInt,
    [jsonUploadLink] throws the serialiser's own TypeError, which carries
    no [parseError] and no payload message; [multipartUploadLink] throws
    the tagged error.  Neither reaches the fetch call. *)
Lemma jsonUploadLink_unserializable_untagged :
  stringify_text (VObj (variables bigint_operation)) = None
  ∧ jsonUploadLink_request (sample_JsonLink None) bigint_operation no_context
    = Threw (TypeError "Do not know how to serialize a BigInt")
  ∧ err_parseError (TypeError "Do not know how to serialize a BigInt") = None
  ∧ multipartUploadLink_request browser_env (sample_UploadLink None)
      bigint_operation no_context
    = Threw (PayloadError (TypeError "Do not know how to serialize a BigInt")).
Proof. repeat split; vm_compute; reflexivity. Qed.

(** When the variables do not serialise, no link calls fetch: the
    form-building links throw the error tagged with [parseError], and
    [jsonUploadLink] throws the serialiser's error as it is. *)
Theorem unserializable_variables_never_fetch
    (env : Env) (lu : UploadLink) (lj : JsonLink) (op : Operation) (ctx : Context) :
  stringify_text (VObj (variables op)) = None →
  multipartUploadLink_request env lu op ctx
    = Threw (PayloadError (TypeError "Do not know how to serialize a BigInt"))
  ∧ Part000.createUploadLink_request env lu op ctx
    = Threw (PayloadError (TypeError "Do not know how to serialize a BigInt"))
  ∧ jsonUploadLink_request lj op ctx
    = Threw (TypeError "Do not know how to serialize a BigInt").
Proof.
  intros Hvars.
  assert (Happend : ∀ http entries,
            append_operation lu op http entries
            = Threw (PayloadError (TypeError "Do not know how to serialize a BigInt"))).
  { intros http entries. unfold append_operation, JSON_stringify. by rewrite Hvars. }
  split; [| split].
  - unfold multipartUploadLink_request.
    destruct (files_map_serializable (extractFiles (VObj (variables op))))
      as [text ->]. simpl. by rewrite Happend.
  - unfold Part000.createUploadLink_request. by rewrite Happend.
  - assert (Hrecord : stringify_text (VObj (requestOperation lj op)) = None).
    { rewrite stringify_text_VObj. unfold requestOperation.
      destruct (variables op) as [| kv vars] eqn:Hv; [discriminate Hvars |].
      cbn [obj_keys map length Nat.eqb negb].
      rewrite app_assoc.
      by rewrite (stringify_members_middle_none _ "variables" _ _ Hvars). }
    destruct (extractFiles (VObj (requestOperation lj op))) as [| ef files] eqn:Hfiles.
    + rewrite (jsonUploadLink_request_without_files lj op ctx Hfiles).
      unfold JSON_stringify. by rewrite Hrecord.
    + rewrite jsonUploadLink_request_with_files by by rewrite Hfiles.
      unfold JSON_stringify. by rewrite Hrecord.
Qed.

Lemma unserializable_variables_never_fetch_witness :
  multipartUploadLink_request browser_env (sample_UploadLink None)
      bigint_operation no_context
    = Threw (PayloadError (TypeError "Do not know how to serialize a BigInt"))
  ∧ Part000.createUploadLink_request browser_env (sample_UploadLink None)
      bigint_operation no_context
    = Threw (PayloadError (TypeError "Do not know how to serialize a BigInt"))
  ∧ jsonUploadLink_request (sample_JsonLink None) bigint_operation no_context
    = Threw (TypeError "Do not know how to serialize a BigInt").
Proof.
  exact (unserializable_variables_never_fetch browser_env (sample_UploadLink None)
           (sample_JsonLink None) bigint_operation no_context eq_refl).
Defined.

(** ** How a call's options are resolved *)

Lemma jsonUploadLink_constructed (env : Env) (options : LinkOptions) (l : JsonLink) :
  jsonUploadLink env options = Returned l →
  or_else (lo_fetch options) (global_fetch env) = Some (linkFetch l)
  ∧ jl_includeExtensions l = lo_includeExtensions options
  ∧ linkUri l = default "/graphql" (lo_uri options)
  ∧ linkCredentials l = lo_credentials options
  ∧ linkHeaders l = lo_headers options
  ∧ linkFetchOptions l = link_fetchOptions options.
Proof.
  unfold jsonUploadLink, read_global_fetch. intros Hl.
  destruct (lo_fetch options) as [f |]; simpl in *.
  - inversion Hl; subst l. by repeat split.
  - destruct (global_fetch env) as [g |]; simpl in *; [| discriminate].
    inversion Hl; subst l. by repeat split.
Qed.

Lemma UploadLink_constructed (env : Env) (options : LinkOptions) (l : UploadLink) :
  construct_UploadLink env options = Returned l →
  or_else (lo_fetch options) (global_fetch env) = Some (ul_fetcher l)
  ∧ ul_uri l = (if truthy_string (lo_uri options)
                then String_of (lo_uri options) else "/graphql")
  ∧ ul_includeExtensions l = lo_includeExtensions options
  ∧ ro_credentials (requestOptions l) = lo_credentials options
  ∧ ro_headers (requestOptions l) = lo_headers options
  ∧ ro_fetchOptions (requestOptions l) = lo_fetchOptions options.
Proof.
  unfold construct_UploadLink, warnIfNoFetch, read_global_fetch. intros Hl.
  destruct (lo_fetch options) as [f |]; simpl in *.
  - inversion Hl; subst l. simpl.
    destruct (truthy_string (lo_uri options)); by repeat split.
  - destruct (global_fetch env) as [g |]; simpl in *; [| discriminate].
    inversion Hl; subst l. simpl.
    destruct (truthy_string (lo_uri options)); by repeat split.
Qed.

Lemma jsonUploadLink_request_call (l : JsonLink) (op : Operation) (ctx : Context)
    (call : FetchCall) :
  jsonUploadLink_request l op ctx = Returned call →
  fc_fetcher call = linkFetch l
  ∧ fc_uri call = default (linkUri l) (cx_uri ctx)
  ∧ ∃ body headers,
      fc_options call = with_body body (with_headers headers (json_fetchOptions l ctx)).
Proof.
  intros Hreq.
  destruct (extractFiles (VObj (requestOperation l op))) as [| ef files] eqn:Hfiles.
  - rewrite (jsonUploadLink_request_without_files l op ctx Hfiles) in Hreq.
    destruct (JSON_stringify (VObj (requestOperation l op))); [| discriminate].
    simpl in Hreq. inversion Hreq; subst call. simpl. eauto.
  - rewrite jsonUploadLink_request_with_files in Hreq by by rewrite Hfiles.
    destruct (JSON_stringify (VObj (requestOperation l op))) as [operations | e];
      [| discriminate].
    simpl in Hreq. destruct (JSON_stringify _) as [map_text | e]; [| discriminate].
    simpl in Hreq. inversion Hreq; subst call. simpl.
    split; [reflexivity |]. split; [reflexivity |].
    exists (FormData ([("operations", PText operations); ("map", PText map_text)]
                        ++ file_parts (extractFiles (VObj (requestOperation l op))))),
      (json_mergedHeaders l ctx).
    rewrite <- (json_fetchOptions_headers l ctx).
    unfold with_body, with_headers, headers_of, headers_or_empty, json_fetchOptions.
    destruct (truthy_string _); reflexivity.
Qed.

Lemma truthy_string_Some (s : option string) :
  truthy_string s = true → Some (String_of s) = s ∧ String_of s ≠ "".
Proof.
  destruct s as [s |]; simpl; [| discriminate].
  destruct (String.eqb_spec s ""); [discriminate |]. by split.
Qed.

(** For a call of a [jsonUploadLink] made from its construction options:
    the fetch called is the injected one, else the global one; the URI is
    the context's when it has one (even the empty string), else the
    link's, else [/graphql]; the method is always POST; the credentials
    are the context's if it has any, else the link's, when that choice is
    a non-empty string, and otherwise what the fetch options carry; and
    the signal and every other key of the fetch options go through,
    context over link. *)
Theorem jsonUploadLink_call_resolution
    (env : Env) (options : LinkOptions) (l : JsonLink)
    (op : Operation) (ctx : Context) (call : FetchCall) :
  jsonUploadLink env options = Returned l →
  jsonUploadLink_request l op ctx = Returned call →
  or_else (lo_fetch options) (global_fetch env) = Some (fc_fetcher call)
  ∧ fc_uri call = default (default "/graphql" (lo_uri options)) (cx_uri ctx)
  ∧ fo_method (fc_options call) = Some "POST"
  ∧ fo_credentials (fc_options call)
    = (if truthy_string (later (lo_credentials options) (cx_credentials ctx))
       then later (lo_credentials options) (cx_credentials ctx)
       else later (fo_credentials (link_fetchOptions options))
                  (fo_credentials (context_fetchOptions ctx)))
  ∧ fo_signal (fc_options call)
    = later (fo_signal (link_fetchOptions options))
            (fo_signal (context_fetchOptions ctx))
  ∧ fo_other (fc_options call)
    = fo_other (context_fetchOptions ctx) ∪ fo_other (link_fetchOptions options).
Proof.
  intros Hl Hreq.
  destruct (jsonUploadLink_constructed env options l Hl)
    as (Hfetch & _ & Huri & Hcred & _ & Hfo).
  destruct (jsonUploadLink_request_call l op ctx call Hreq)
    as (Hf & Hu & body & headers & Hopt).
  rewrite Hf, Hu, Huri, Hopt. split; [exact Hfetch |]. split; [reflexivity |].
  unfold json_fetchOptions, context_fetchOptions. rewrite Hcred, Hfo.
  destruct (truthy_string (later (lo_credentials options) (cx_credentials ctx)))
    eqn:Htruthy; simpl; repeat split; try reflexivity.
  apply truthy_string_Some in Htruthy. apply Htruthy.
Qed.

Lemma jsonUploadLink_call_resolution_witness :
  ∃ l call,
    jsonUploadLink browser_env busy_link_options = Returned l
    ∧ jsonUploadLink_request l sample_operation busy_context = Returned call
    ∧ fc_fetcher call = {| fetcher_uid := 7 |}
    ∧ fc_uri call = ""
    ∧ fo_method (fc_options call) = Some "POST"
    ∧ fo_credentials (fc_options call) = Some "omit"
    ∧ fo_signal (fc_options call) = Some (caller_signal 2).
Proof.
  destruct (jsonUploadLink browser_env busy_link_options) as [l | e] eqn:Hl;
    [| vm_compute in Hl; discriminate Hl].
  destruct (jsonUploadLink_request l sample_operation busy_context) as [call | e] eqn:Hreq.
  - destruct (jsonUploadLink_call_resolution browser_env busy_link_options l
                sample_operation busy_context call Hl Hreq)
      as (Hf & Hu & Hm & Hc & Hs & _).
    exists l, call. split; [reflexivity |]. split; [exact Hreq |].
    split; [by inversion Hf |]. by repeat split.
  - vm_compute in Hl. inversion Hl; subst l. vm_compute in Hreq. discriminate Hreq.
Defined.

Lemma fetcherOptions_of_fields (l : UploadLink) (ctx : Context)
    (literal : Headers) (body : Body) (sp : SignalPair) :
  fo_method (fetcherOptions_of l ctx literal body sp)
    = Some (default "POST" (fo_method (caller_options l ctx)))
  ∧ fo_body (fetcherOptions_of l ctx literal body sp) = Some body
  ∧ fo_other (fetcherOptions_of l ctx literal body sp) = fo_other (caller_options l ctx)
  ∧ fo_credentials (fetcherOptions_of l ctx literal body sp)
    = (if truthy_string (cx_credentials ctx) then cx_credentials ctx
       else if truthy_string (ro_credentials (requestOptions l))
            then ro_credentials (requestOptions l)
            else fo_credentials (caller_options l ctx)).
Proof.
  unfold fetcherOptions_of. fold (caller_options l ctx).
  destruct (caller_options l ctx) as [m h b c sg ot].
  destruct (truthy_string (ro_credentials (requestOptions l))) eqn:Hro;
    destruct (truthy_string (cx_credentials ctx)) eqn:Hcx;
    destruct (ro_headers (requestOptions l)), (cx_headers ctx),
             (controller sp), (signal sp); simpl;
    rewrite ?(right_id_L ∅ (∪));
    try (apply truthy_string_Some in Hro as [Hro _]);
    try (apply truthy_string_Some in Hcx as [Hcx _]);
    rewrite ?Hcx, ?Hro; destruct m, c; done.
Qed.

Lemma caller_options_resolved (env : Env) (options : LinkOptions) (l : UploadLink)
    (ctx : Context) :
  construct_UploadLink env options = Returned l →
  fo_method (caller_options l ctx)
    = later (fo_method (link_fetchOptions options)) (fo_method (context_fetchOptions ctx))
  ∧ fo_credentials (caller_options l ctx)
    = later (fo_credentials (link_fetchOptions options))
            (fo_credentials (context_fetchOptions ctx))
  ∧ fo_other (caller_options l ctx)
    = fo_other (context_fetchOptions ctx) ∪ fo_other (link_fetchOptions options).
Proof.
  intros Hl. destruct (UploadLink_constructed env options l Hl) as (_ & _ & _ & _ & _ & Hfo).
  unfold caller_options, link_fetchOptions, context_fetchOptions. rewrite Hfo.
  destruct (lo_fetchOptions options) as [linkFO |]; simpl.
  - by repeat split.
  - rewrite (right_id_L ∅ (∪)).
    repeat split; by destruct (default no_options (cx_fetchOptions ctx)) as [[] ? ? [] ? ?].
Qed.

Lemma form_request_subscribes (env : Env) (l : UploadLink) (op : Operation)
    (ctx : Context) (sub : Subscription) :
  multipartUploadLink_request env l op ctx = Returned sub
    ∨ Part000.createUploadLink_request env l op ctx = Returned sub →
  ∃ literal entries, sub = subscribe_UploadLink env l ctx literal entries.
Proof.
  intros [Hreq | Hreq].
  - apply multipartUploadLink_request_subscribes in Hreq as [entries ->]. eauto.
  - apply createUploadLink_request_subscribes in Hreq as [entries ->]. eauto.
Qed.

(** For a call of [multipartUploadLink] or of the earlier
    [createUploadLink] made from its construction options: the fetch
    called is the injected one, else the global one; the URI is the
    context's if that is a non-empty string, else the link's if that is
    one, else [/graphql], and so never empty; the method is POST unless
    the fetch options name one, context over link; the credentials are
    the context's if non-empty, else the link's if non-empty, else what
    the fetch options carry; every other key of the fetch options goes
    through, context over link; and the body is a form. *)
Theorem UploadLink_call_resolution
    (env : Env) (options : LinkOptions) (l : UploadLink)
    (op : Operation) (ctx : Context) (sub : Subscription) :
  multipartUploadLink env options = Returned l
    ∨ Part000.createUploadLink env options = Returned l →
  multipartUploadLink_request env l op ctx = Returned sub
    ∨ Part000.createUploadLink_request env l op ctx = Returned sub →
  or_else (lo_fetch options) (global_fetch env) = Some (fc_fetcher (sub_call sub))
  ∧ fc_uri (sub_call sub)
    = (if truthy_string (cx_uri ctx) then String_of (cx_uri ctx)
       else if truthy_string (lo_uri options) then String_of (lo_uri options)
            else "/graphql")
  ∧ fc_uri (sub_call sub) ≠ ""
  ∧ fo_method (fc_options (sub_call sub))
    = Some (default "POST" (later (fo_method (link_fetchOptions options))
                                  (fo_method (context_fetchOptions ctx))))
  ∧ fo_credentials (fc_options (sub_call sub))
    = (if truthy_string (cx_credentials ctx) then cx_credentials ctx
       else if truthy_string (lo_credentials options) then lo_credentials options
            else later (fo_credentials (link_fetchOptions options))
                       (fo_credentials (context_fetchOptions ctx)))
  ∧ fo_other (fc_options (sub_call sub))
    = fo_other (context_fetchOptions ctx) ∪ fo_other (link_fetchOptions options)
  ∧ ∃ entries, fo_body (fc_options (sub_call sub)) = Some (FormData entries).
Proof.
  intros Hl Hreq.
  assert (Hl' : construct_UploadLink env options = Returned l) by by destruct Hl.
  destruct (UploadLink_constructed env options l Hl')
    as (Hfetch & Huri & _ & Hcred & _ & _).
  destruct (caller_options_resolved env options l ctx Hl') as (Hm & Hc & Ho).
  destruct (form_request_subscribes env l op ctx sub Hreq) as (literal & entries & ->).
  destruct (fetcherOptions_of_fields l ctx literal (FormData entries)
              (createSignalIfSupported env)) as (Hfm & Hfb & Hfo & Hfc).
  unfold subscribe_UploadLink. cbn [sub_call fc_fetcher fc_uri fc_options].
  rewrite Hfm, Hfb, Hfo, Hfc, Hm, Hc, Ho, Hcred, Huri.
  split; [exact Hfetch |]. split; [reflexivity |].
  split.
  { destruct (truthy_string (cx_uri ctx)) eqn:Hcx;
      [by apply truthy_string_Some |].
    destruct (truthy_string (lo_uri options)) eqn:Hlo;
      [by apply truthy_string_Some | discriminate]. }
  repeat split. by exists entries.
Qed.

Lemma UploadLink_call_resolution_witness :
  ∃ l sub,
    multipartUploadLink browser_env busy_link_options = Returned l
    ∧ multipartUploadLink_request browser_env l sample_operation busy_context
      = Returned sub
    ∧ fc_fetcher (sub_call sub) = {| fetcher_uid := 7 |}
    ∧ fc_uri (sub_call sub) = "/graphql"
    ∧ fo_method (fc_options (sub_call sub)) = Some "PUT"
    ∧ fo_credentials (fc_options (sub_call sub)) = Some "include".
Proof.
  destruct (multipartUploadLink browser_env busy_link_options) as [l | e] eqn:Hl;
    [| vm_compute in Hl; discriminate Hl].
  destruct (multipartUploadLink_request browser_env l sample_operation busy_context)
    as [sub | e] eqn:Hreq.
  - destruct (UploadLink_call_resolution browser_env busy_link_options l
                sample_operation busy_context sub (or_introl Hl) (or_introl Hreq))
      as (Hf & Hu & _ & Hm & Hc & _).
    exists l, sub. split; [reflexivity |]. split; [exact Hreq |].
    split; [by inversion Hf |]. by repeat split.
  - vm_compute in Hl. inversion Hl; subst l. vm_compute in Hreq. discriminate Hreq.
Defined.

(** ** Construction *)


(** ** What the handlers report *)

Lemma hasOwnProperty_uncallable (result : value) :
  callable_receiver result = false →
  ∃ message, ∀ key, hasOwnProperty result key = Threw (TypeError message).
Proof.
  destruct result; simpl; try discriminate.
  - intros _. by eexists.
  - destruct (obj_has "hasOwnProperty" members); [| discriminate].
    intros _. by eexists.
Qed.

(** The classifier in closed form. *)
Lemma parseAndCheckResponse_cases (request : Operation) (response : Response) :
  (JSON_parse (bodyText response) = None
   ∧ parseAndCheckResponse request response = Threw (ParseError response))
  ∨ ∃ result,
      JSON_parse (bodyText response) = Some result
      ∧ ((300 ≤ status response
          ∧ parseAndCheckResponse request response
            = Threw (NetworkError response result))
         ∨ (status response < 300 ∧ callable_receiver result = false
            ∧ ∃ message,
                parseAndCheckResponse request response = Threw (TypeError message))
         ∨ (status response < 300 ∧ callable_receiver result = true
            ∧ has_member "data" result || has_member "errors" result = true
            ∧ parseAndCheckResponse request response = Returned result)
         ∨ (status response < 300 ∧ callable_receiver result = true
            ∧ has_member "data" result || has_member "errors" result = false
            ∧ parseAndCheckResponse request response
              = Threw (ServerDataError request response result))).
Proof.
  destruct (JSON_parse (bodyText response)) as [result |] eqn:Hparse;
    [right; exists result; split; [reflexivity |]
    | left; split; [reflexivity | by apply parseAndCheckResponse_unparsed]].
  destruct (Z_lt_le_dec (status response) 300) as [Hlt | Hge];
    [| left; split; [lia | by apply parseAndCheckResponse_not_successful]].
  right. destruct (callable_receiver result) eqn:Hcall.
  - right. rewrite (parseAndCheckResponse_envelope request response result
                      Hparse Hlt Hcall).
    destruct (has_member "data" result || has_member "errors" result);
      [left | right]; by repeat split.
  - left. split; [exact Hlt |]. split; [reflexivity |].
    destruct (hasOwnProperty_uncallable result Hcall) as [message Hthrow].
    exists message. unfold parseAndCheckResponse. rewrite Hparse. simpl.
    destruct (Z.leb_spec 300 (status response)); [lia |]. simpl.
    rewrite (Hthrow "data"). reflexivity.
Qed.

Lemma has_member_object (k : string) (result : value) :
  has_member k result = true → ∃ m, result = VObj m ∧ obj_has k m = true.
Proof. destruct result; simpl; try discriminate. eauto. Qed.

(** A result the classifier returns is the parsed body of a response
    with a status below 300, and it is an object with a [data] or an
    [errors] member. *)
Theorem parseAndCheckResponse_success_sound
    (request : Operation) (response : Response) (result : value) :
  parseAndCheckResponse request response = Returned result →
  JSON_parse (bodyText response) = Some result
  ∧ status response < 300
  ∧ ∃ m, result = VObj m ∧ (obj_has "data" m = true ∨ obj_has "errors" m = true).
Proof.
  intros Hok.
  destruct (parseAndCheckResponse_cases request response)
    as [[_ H] | (r & Hparse & [[_ H] | [(_ & _ & message & H)
                                      | [(Hlt & _ & Hmem & H) | (_ & _ & _ & H)]]])];
    rewrite H in Hok; try discriminate Hok.
  inversion Hok; subst r. split; [exact Hparse |]. split; [exact Hlt |].
  apply orb_true_iff in Hmem as [Hmem | Hmem];
    apply has_member_object in Hmem as (m & -> & Hm); eauto.
Qed.

Lemma parseAndCheckResponse_success_sound_witness :
  JSON_parse (bodyText (response_of 200 data_body)) = Some (VObj [("data", VObj [])])
  ∧ status (response_of 200 data_body) < 300
  ∧ ∃ m, VObj [("data", VObj [])] = VObj m
         ∧ (obj_has "data" m = true ∨ obj_has "errors" m = true).
Proof.
  assert (H : parseAndCheckResponse sample_operation (response_of 200 data_body)
              = Returned (VObj [("data", VObj [])])) by (vm_compute; reflexivity).
  exact (parseAndCheckResponse_success_sound sample_operation
           (response_of 200 data_body) (VObj [("data", VObj [])]) H).
Defined.

(** An error the promise of the classifier rejects with is the reason
    the body read rejected with, passed on as it is, or, the body
    having been read, the ParseError, the NetworkError or the
    ServerDataError of this response, each carrying the response and
    its status code (the last two also the parsed body, the first the
    body text), or else a TypeError raised on a parsed body on which
    [hasOwnProperty] cannot be called. *)
Theorem parseAndCheckResponse_errors_carry_response
    (request : Operation) (response : Response) (unread : option JsError)
    (e : JsError) :
  parseAndCheckResponse_read request response unread = Threw e →
  unread = Some e
  ∨ (unread = None
     ∧ err_response e = Some response
     ∧ err_statusCode e = Some (status response)
     ∧ (e = ParseError response ∧ err_bodyText e = Some (bodyText response)
        ∨ ∃ result,
            JSON_parse (bodyText response) = Some result
            ∧ err_result e = Some result
            ∧ (e = NetworkError response result
               ∨ e = ServerDataError request response result)))
  ∨ (unread = None
     ∧ err_name e = "TypeError"
     ∧ ∃ result,
         JSON_parse (bodyText response) = Some result
         ∧ callable_receiver result = false).
Proof.
  destruct unread as [reason |]; simpl;
    [intros Hthrow; left; by inversion Hthrow |].
  intros Hthrow. right.
  destruct (parseAndCheckResponse_cases request response)
    as [[_ H] | (r & Hparse & [[_ H] | [(_ & Hcall & message & H)
                                      | [(_ & _ & _ & H) | (_ & _ & _ & H)]]])];
    rewrite H in Hthrow; try discriminate Hthrow; inversion Hthrow; subst e.
  - left. repeat split. by left.
  - left. repeat split. right. exists r. eauto.
  - right. split; [reflexivity |]. split; [reflexivity |]. eauto.
  - left. repeat split. right. exists r. eauto.
Qed.

Lemma parseAndCheckResponse_errors_carry_response_witness :
  ∃ e,
    parseAndCheckResponse_read sample_operation (response_of 500 data_body) None
      = Threw e
    ∧ err_response e = Some (response_of 500 data_body)
    ∧ err_statusCode e = Some 500.
Proof.
  destruct (parseAndCheckResponse_read sample_operation (response_of 500 data_body)
              None) as [r | e] eqn:Hthrow; [vm_compute in Hthrow; discriminate Hthrow |].
  exists e. split; [reflexivity |].
  destruct (parseAndCheckResponse_errors_carry_response sample_operation
              (response_of 500 data_body) None e Hthrow)
    as [Hread | [(_ & Hr & Hs & _) | (_ & Hn & _)]].
  - discriminate Hread.
  - by split.
  - vm_compute in Hthrow. inversion Hthrow; subst e. discriminate Hn.
Defined.



(** For a response with a status from 200 to 299 whose body parses to a
    value on which [hasOwnProperty] can be called, the two kinds of link
    agree exactly when the body has a [data] or an [errors] member:
    [jsonUploadLink] reports the parsed body in every case, the
    form-building links report it in that case and a ServerDataError
    otherwise. *)
Theorem links_differ_on_envelope
    (operation : Operation) (response : Response) (result : value) :
  ok response = true →
  JSON_parse (bodyText response) = Some result →
  callable_receiver result = true →
  observer_calls (jsonUploadLink_settle (fulfilled response)) = [next result; complete]
  ∧ observer_calls (UploadLink_settle operation (fulfilled response))
    = (if has_member "data" result || has_member "errors" result
       then [next result; complete]
       else [error (ServerDataError operation response result)]).
Proof.
  intros Hok Hparse Hcall. split.
  - simpl. unfold response_json. by rewrite Hok, Hparse.
  - assert (Hlt : status response < 300).
    { unfold ok in Hok. apply andb_true_iff in Hok as [_ Hle].
      apply Z.leb_le in Hle. lia. }
    simpl. rewrite (parseAndCheckResponse_envelope operation response result
                      Hparse Hlt Hcall).
    by destruct (has_member "data" result || has_member "errors" result).
Qed.

Lemma links_differ_on_envelope_witness :
  observer_calls (jsonUploadLink_settle (fulfilled (response_of 200 foo_body)))
    = [next (VObj [("foo", VNum "1")]); complete]
  ∧ observer_calls (UploadLink_settle sample_operation (fulfilled (response_of 200 foo_body)))
    = [error (ServerDataError sample_operation (response_of 200 foo_body)
                (VObj [("foo", VNum "1")]))].
Proof.
  assert (Hparse : JSON_parse (bodyText (response_of 200 foo_body))
                   = Some (VObj [("foo", VNum "1")])) by (vm_compute; reflexivity).
  exact (links_differ_on_envelope sample_operation (response_of 200 foo_body)
           (VObj [("foo", VNum "1")]) eq_refl Hparse eq_refl).
Defined.

(** ** The files map and the file parts *)

Lemma map_fst_imap {A B C : Type} (l : list A) :
  ∀ f : nat → A → B * C, map fst (imap f l) = imap (fun i x => fst (f i x)) l.
Proof.
  induction l as [| x l IH]; intros f; simpl; [reflexivity |].
  f_equal. apply (IH (f ∘ S)).
Qed.

Lemma imap_index_keys_NoDup {A : Type} (l : list A) :
  NoDup (imap (fun (i : nat) (_ : A) => pretty i) l).
Proof.
  apply NoDup_alt. intros i j k Hi Hj.
  rewrite list_lookup_imap in Hi, Hj.
  destruct (l !! i); [| discriminate]. destruct (l !! j); [| discriminate].
  simpl in Hi, Hj. inversion Hi; subst k. inversion Hj as [Heq].
  by apply (inj pretty) in Heq.
Qed.

(** The file parts and the files map go together: the parts are named
    by the keys of the map, in the same order and each once; the i-th
    part is named i in decimal and carries the i-th file under its own
    name, and the i-th entry of the map has that key and holds the one
    path of that file. *)
Theorem file_parts_match_files_map (files : list ExtractedFile) :
  map fst (file_parts files) = obj_keys (files_map files)
  ∧ NoDup (obj_keys (files_map files))
  ∧ ∀ i ef, files !! i = Some ef →
      file_parts files !! i = Some (pretty i, PFile (file ef) (file_name (file ef)))
      ∧ (files_map files : list (string * value)) !! i
        = Some (pretty i, VArr [VStr (path_string (path ef))]).
Proof.
  assert (Hkeys : obj_keys (files_map files)
                  = imap (fun (i : nat) (_ : ExtractedFile) => pretty i) files).
  { unfold obj_keys. rewrite files_map_entries. apply map_fst_imap. }
  split; [| split].
  - rewrite Hkeys. unfold file_parts. apply map_fst_imap.
  - rewrite Hkeys. apply imap_index_keys_NoDup.
  - intros i ef Hi. rewrite files_map_entries. unfold file_parts.
    split; rewrite list_lookup_imap, Hi; reflexivity.
Qed.

Lemma file_parts_match_files_map_witness :
  file_parts two_files !! 1%nat
    = Some ("1", PFile {| file_name := "cv.txt"; file_uid := 2 |} "cv.txt")
  ∧ (files_map two_files : list (string * value)) !! 1%nat
    = Some ("1", VArr [VStr "b.0"]).
Proof.
  exact (proj2 (proj2 (file_parts_match_files_map two_files)) 1%nat
           {| path := [Key "b"; Index 0];
              file := {| file_name := "cv.txt"; file_uid := 2 |} |} eq_refl).
Defined.

Lemma stringify_members_files_text (files : list ExtractedFile) :
  ∀ n, stringify_members (imap (fun i f => files_entry (n + i) f) files)
       = Some (imap (fun i f => files_entry_text (n + i) f) files).
Proof.
  induction files as [| f files IH]; intros n; [reflexivity |].
  rewrite !imap_cons.
  rewrite (imap_ext (_ ∘ S) (fun i f => files_entry (S n + i) f))
    by (intros; simpl; f_equal; lia).
  rewrite (imap_ext (_ ∘ S) (fun i f => files_entry_text (S n + i) f))
    by (intros; simpl; f_equal; lia).
  change (stringify_members (files_entry (n + 0) f
                               :: imap (fun i f => files_entry (S n + i) f) files))
    with (match stringify_members (imap (fun i f => files_entry (S n + i) f) files) with
          | Some sr => Some (files_entry_text (n + 0) f :: sr)
          | None => None
          end).
  by rewrite (IH (S n)).
Qed.

(** The text sent as the files map is an object with one member per
    file in order, the index in quotes before an array of the one quoted
    path; without files it is the empty object. *)
Theorem files_map_text (files : list ExtractedFile) :
  JSON_stringify (VObj (files_map files))
    = Returned ("{" +:+ String.concat "," (imap files_entry_text files) +:+ "}").
Proof.
  unfold JSON_stringify. rewrite stringify_text_VObj, files_map_entries.
  change (imap files_entry files) with (imap (fun i f => files_entry (0 + i) f) files).
  rewrite (stringify_members_files_text files 0). reflexivity.
Qed.

(** ** The switches of the form-building links *)






Lemma append_operation_extensions (l : UploadLink) (op : Operation)
    (ext1 ext2 : JsObject) (http : HttpOptions) (entries : list (string * Part)) :
  obj_has "toString" ext1 = obj_has "toString" ext2 →
  append_operation l (with_extensions (Some ext1) op) http entries
    = append_operation l (with_extensions (Some ext2) op) http entries.
Proof.
  intros Hown. unfold append_operation, with_extensions, String_of_object.
  cbn [operationName variables query extensions]. by rewrite Hown.
Qed.

(** What the extensions hold never reaches the form, beyond whether
    they have a member named [toString]: two operations that differ
    only in their extensions, both with such a member or both without,
    give the same request in [multipartUploadLink] and in the earlier
    [createUploadLink]. *)
Theorem form_links_ignore_extensions_content
    (env : Env) (l : UploadLink) (op : Operation) (ext1 ext2 : JsObject)
    (ctx : Context) :
  obj_has "toString" ext1 = obj_has "toString" ext2 →
  multipartUploadLink_request env l (with_extensions (Some ext1) op) ctx
    = multipartUploadLink_request env l (with_extensions (Some ext2) op) ctx
  ∧ Part000.createUploadLink_request env l (with_extensions (Some ext1) op) ctx
    = Part000.createUploadLink_request env l (with_extensions (Some ext2) op) ctx.
Proof.
  intros Hown. split.
  - unfold multipartUploadLink_request.
    change (variables (with_extensions (Some ext1) op)) with (variables op).
    change (variables (with_extensions (Some ext2) op)) with (variables op).
    destruct (JSON_stringify _) as [files_text | e]; [| reflexivity].
    simpl. by rewrite (append_operation_extensions l op ext1 ext2 _ _ Hown).
  - unfold Part000.createUploadLink_request.
    change (variables (with_extensions (Some ext1) op)) with (variables op).
    change (variables (with_extensions (Some ext2) op)) with (variables op).
    by rewrite (append_operation_extensions l op ext1 ext2 _ _ Hown).
Qed.

Lemma form_links_ignore_extensions_content_witness :
  ∃ sub,
    multipartUploadLink_request browser_env (sample_UploadLink None)
      (with_extensions (Some [("trace", VStr "a")]) upload_operation) busy_context
      = Returned sub
    ∧ multipartUploadLink_request browser_env (sample_UploadLink None)
        (with_extensions (Some [("persisted", VBool true)]) upload_operation)
        busy_context
      = Returned sub
    ∧ In ("extensions", PText "[object Object]")
        (match fo_body (fc_options (sub_call sub)) with
         | Some (FormData entries) => entries
         | _ => []
         end).
Proof.
  destruct (multipartUploadLink_request browser_env (sample_UploadLink None)
              (with_extensions (Some [("trace", VStr "a")]) upload_operation)
              busy_context) as [sub | e] eqn:Hreq.
  - exists sub. split; [reflexivity |]. split.
    + rewrite <- Hreq. symmetry.
      apply (form_links_ignore_extensions_content browser_env (sample_UploadLink None)
               upload_operation [("trace", VStr "a")] [("persisted", VBool true)]
               busy_context).
      reflexivity.
    + vm_compute in Hreq. inversion Hreq; subst sub. vm_compute. tauto.
  - vm_compute in Hreq. discriminate Hreq.
Defined.

(** ** When a request reaches fetch *)



(** Extensions that are to be sent and have a member named [toString]
    stop the request of a form-building link before the fetch call: the
    variables having serialised, the append of the extensions throws a
    TypeError out of the subscriber. *)
Theorem form_links_unconvertible_extensions
    (env : Env) (l : UploadLink) (op : Operation) (ctx : Context)
    (members : JsObject) :
  is_Some (stringify_text (VObj (variables op))) →
  ul_includeExtensions l || http_includeExtensions (http_of ctx) = true →
  extensions op = Some members →
  obj_has "toString" members = true →
  ∃ message,
    multipartUploadLink_request env l op ctx = Threw (TypeError message)
    ∧ Part000.createUploadLink_request env l op ctx = Threw (TypeError message).
Proof.
  intros [text Hser] Hswitch Hext Hown.
  destruct (extensions_entries_cases l op (http_of ctx))
    as [(Happ & _) | (_ & _ & _ & message & Hno)].
  - unfold extensions_appendable in Happ.
    rewrite Hswitch, Hext, Hown in Happ. discriminate Happ.
  - exists message. split.
    + unfold multipartUploadLink_request. fold (http_of ctx).
      destruct (files_map_serializable (extractFiles (VObj (variables op))))
        as [files_text Hmap].
      rewrite Hmap. simpl.
      by rewrite (append_operation_unconvertible l op (http_of ctx) _ text _ Hser Hno).
    + unfold Part000.createUploadLink_request. fold (http_of ctx).
      by rewrite (append_operation_unconvertible l op (http_of ctx) _ text _ Hser Hno).
Qed.

Lemma form_links_unconvertible_extensions_witness :
  ∃ message,
    multipartUploadLink_request browser_env (sample_UploadLink None)
      (with_extensions (Some [("toString", VStr "x")]) upload_operation) busy_context
      = Threw (TypeError message)
    ∧ Part000.createUploadLink_request browser_env (sample_UploadLink None)
        (with_extensions (Some [("toString", VStr "x")]) upload_operation)
        busy_context
      = Threw (TypeError message).
Proof.
  apply (form_links_unconvertible_extensions browser_env (sample_UploadLink None)
           (with_extensions (Some [("toString", VStr "x")]) upload_operation)
           busy_context [("toString", VStr "x")]).
  - vm_compute. by eexists.
  - reflexivity.
  - reflexivity.
  - reflexivity.
Defined.

Lemma string_append_assoc (a b c : string) : (a +:+ b) +:+ c = a +:+ (b +:+ c).
Proof.
  induction a as [| x a IH]; [reflexivity |].
  change (String x ((a +:+ b) +:+ c) = String x (a +:+ (b +:+ c))). by f_equal.
Qed.

Lemma stringify_text_query_first (q : string) (m : list (string * value)) (text : string) :
  stringify_text (VObj (("query", VStr q) :: m)) = Some text →
  ∃ rest, text = "{" +:+ quote "query" +:+ ":" +:+ quote q +:+ rest.
Proof.
  rewrite stringify_text_VObj.
  change (stringify_members (("query", VStr q) :: m)) with
    (match stringify_members m with
     | Some sr => Some ((quote "query" +:+ ":" +:+ quote q) :: sr)
     | None => None
     end).
  destruct (stringify_members m) as [parts |]; [| discriminate].
  intros Htext. inversion Htext; subst text. clear Htext.
  destruct parts as [| p parts].
  - exists "}". cbn [String.concat]. by rewrite !string_append_assoc.
  - exists ("," +:+ String.concat "," (p :: parts) +:+ "}").
    change (String.concat "," ((quote "query" +:+ ":" +:+ quote q) :: p :: parts))
      with ((quote "query" +:+ ":" +:+ quote q) +:+ "," +:+ String.concat "," (p :: parts)).
    by rewrite !string_append_assoc.
Qed.

(** Every request of [jsonUploadLink] that reaches fetch carries the
    printed query, whatever the context says: the JSON text sent as the
    body, or as the [operations] field of the form, starts with the
    [query] member holding the printed query in quotes. *)
Theorem jsonUploadLink_always_sends_query
    (l : JsonLink) (op : Operation) (ctx : Context) (call : FetchCall) :
  jsonUploadLink_request l op ctx = Returned call →
  ∃ rest map_text,
    fo_body (fc_options call)
      = Some (BodyText ("{" +:+ quote "query" +:+ ":" +:+ quote (print (query op))
                          +:+ rest))
    ∨ fo_body (fc_options call)
      = Some (FormData
                ([("operations",
                   PText ("{" +:+ quote "query" +:+ ":" +:+ quote (print (query op))
                            +:+ rest));
                  ("map", PText map_text)]
                   ++ file_parts (extractFiles (VObj (requestOperation l op))))).
Proof.
  intros Hreq.
  assert (Hfirst : ∀ text, stringify_text (VObj (requestOperation l op)) = Some text →
            ∃ rest, text = "{" +:+ quote "query" +:+ ":" +:+ quote (print (query op))
                             +:+ rest)
    by (intros text; apply stringify_text_query_first).
  assert (Hreturned : ∀ text,
            JSON_stringify (VObj (requestOperation l op)) = Returned text →
            stringify_text (VObj (requestOperation l op)) = Some text).
  { intros text. unfold JSON_stringify.
    destruct (stringify_text (VObj (requestOperation l op))); by inversion 1. }
  destruct (extractFiles (VObj (requestOperation l op))) as [| ef files] eqn:Hfiles.
  - rewrite (jsonUploadLink_request_without_files l op ctx Hfiles) in Hreq.
    destruct (JSON_stringify (VObj (requestOperation l op))) as [text | e] eqn:Hjs;
      [| discriminate Hreq].
    destruct (Hfirst text (Hreturned text eq_refl)) as [rest ->].
    simpl in Hreq. inversion Hreq; subst call. exists rest, "". by left.
  - rewrite jsonUploadLink_request_with_files in Hreq by by rewrite Hfiles.
    rewrite Hfiles in Hreq.
    destruct (JSON_stringify (VObj (requestOperation l op))) as [text | e] eqn:Hjs;
      [| discriminate Hreq].
    destruct (Hfirst text (Hreturned text eq_refl)) as [rest ->].
    simpl in Hreq. destruct (JSON_stringify _) as [map_text | e]; [| discriminate].
    simpl in Hreq. inversion Hreq; subst call. exists rest, map_text. by right.
Qed.

Lemma jsonUploadLink_always_sends_query_witness :
  ∃ call rest map_text,
    jsonUploadLink_request (sample_JsonLink None) sample_operation busy_context
      = Returned call
    ∧ (fo_body (fc_options call)
         = Some (BodyText ("{" +:+ quote "query" +:+ ":" +:+ quote "query Q { a }"
                             +:+ rest))
       ∨ fo_body (fc_options call)
         = Some (FormData
                   ([("operations",
                      PText ("{" +:+ quote "query" +:+ ":" +:+ quote "query Q { a }"
                               +:+ rest));
                     ("map", PText map_text)]
                      ++ file_parts
                           (extractFiles
                              (VObj (requestOperation (sample_JsonLink None)
                                       sample_operation)))))).
Proof.
  destruct (jsonUploadLink_request (sample_JsonLink None) sample_operation busy_context)
    as [call | e] eqn:Hreq; [| vm_compute in Hreq; discriminate Hreq].
  destruct (jsonUploadLink_always_sends_query (sample_JsonLink None) sample_operation
              busy_context call Hreq) as (rest & map_text & Hbody).
  exists call, rest, map_text. split; [reflexivity | exact Hbody].
Defined.
